(** * ngago: query translation and filter dispatch

    A shallow embedding of [base_repository.go] and of the option parsing of
    [base_rest_controller.go].

    - Go strings are byte sequences: [string] with one [ascii] per byte.
    - Go's [int] is taken to be 64 bits wide; it is a [Z] and the one place
      where the code computes with it ([parseOptions]) wraps around.
    - A runtime panic is [None] in the [option] monad.
    - The persistence driver is external.  A [QuerySeter] is the table it was
      opened on together with the builder calls made on it, in order: what the
      driver is handed. *)

From Stdlib Require Import ZArith Ascii String List Bool Lia PrimFloat.
From stdpp Require Import base option list gmap strings fin_maps.

Local Open Scope string_scope.
Local Open Scope Z_scope.

(** Go's [error] values that reach this code: the two of [strconv], the
    driver's "no row found", and any other.  A nil error is [None]. *)
Inductive error :=
| ErrSyntax
| ErrRange
| ErrNoRows
| ErrOther (msg : string).

(** ** The Go standard library functions the code calls *)

Module Strings.

(** [s[n:]] for [n <= len(s)] *)
Fixpoint drop (n : nat) (s : string) : string :=
  match n, s with
  | O, _ => s
  | S n', String _ s' => drop n' s'
  | S _, EmptyString => EmptyString
  end.

(** [s[:n]] for [n <= len(s)] *)
Fixpoint take (n : nat) (s : string) : string :=
  match n, s with
  | O, _ => EmptyString
  | S n', String c s' => String c (take n' s')
  | S _, EmptyString => EmptyString
  end.

(** [len(s) >= len(prefix) && s[:len(prefix)] == prefix] *)
Definition HasPrefix (s prefix : string) : bool :=
  (String.length prefix <=? String.length s)%nat
  && String.eqb (take (String.length prefix) s) prefix.

(** [len(s) >= len(suffix) && s[len(s)-len(suffix):] == suffix] *)
Definition HasSuffix (s suffix : string) : bool :=
  (String.length suffix <=? String.length s)%nat
  && String.eqb (drop (String.length s - String.length suffix) s) suffix.

Definition TrimPrefix (s prefix : string) : string :=
  if HasPrefix s prefix then drop (String.length prefix) s else s.

Definition TrimSuffix (s suffix : string) : string :=
  if HasSuffix s suffix
  then take (String.length s - String.length suffix) s
  else s.

(** [Replace(s, old, new, -1)] for a non-empty [old]: every occurrence of
    [old], found from the left and not overlapping, becomes [new].  [skip]
    counts the bytes of an occurrence still to be passed over. *)
Fixpoint replaceFrom (old new : string) (skip : nat) (s : string) : string :=
  match s with
  | EmptyString => EmptyString
  | String c s' =>
      match skip with
      | S k => replaceFrom old new k s'
      | O =>
          if HasPrefix s old
          then new +:+ replaceFrom old new (String.length old - 1) s'
          else String c (replaceFrom old new O s')
      end
  end.

Definition ReplaceAll (s old new : string) : string :=
  replaceFrom old new O s.

(** [Split(s, sep)] for a non-empty [sep]: the pieces of [s] between the
    occurrences of [sep]; a string without [sep], the empty one included,
    is a single piece.  The result is the first piece and the others. *)
Fixpoint splitFrom (sep : string) (skip : nat) (s : string)
  : string * list string :=
  match s with
  | EmptyString => (EmptyString, [])
  | String c s' =>
      match skip with
      | S k => splitFrom sep k s'
      | O =>
          if HasPrefix s sep
          then let '(p, ps) := splitFrom sep (String.length sep - 1) s' in
               (EmptyString, p :: ps)
          else let '(p, ps) := splitFrom sep O s' in
               (String c p, ps)
      end
  end.

Definition Split (s sep : string) : list string :=
  let '(p, ps) := splitFrom sep O s in p :: ps.

(** ASCII letters are mapped to lower case.  Go maps runes outside ASCII by
    the Unicode tables; here their bytes stay as they are.  No rune outside
    ASCII has a lower case among [d], [e], [s], [c], so that the test
    [ToLower(x) == "desc"] is the same in both. *)
Definition lowerByte (c : ascii) : ascii :=
  let n := nat_of_ascii c in
  if ((65 <=? n) && (n <=? 90))%nat then ascii_of_nat (n + 32) else c.

Fixpoint ToLower (s : string) : string :=
  match s with
  | EmptyString => EmptyString
  | String c s' => String (lowerByte c) (ToLower s')
  end.

(** [unicode.IsSpace], on the UTF-8 bytes of a rune: the ASCII white space
    (tab, LF, VT, FF, CR, space), then U+0085 and U+00A0 (two bytes), then
    U+1680, U+2000..U+200A, U+2028, U+2029, U+202F, U+205F and U+3000
    (three bytes). *)
Definition isSpace1 (c : ascii) : bool :=
  let n := nat_of_ascii c in
  ((9 <=? n) && (n <=? 13) || (n =? 32))%nat.

Definition isSpace2 (c1 c2 : ascii) : bool :=
  let n1 := nat_of_ascii c1 in
  let n2 := nat_of_ascii c2 in
  ((n1 =? 194) && ((n2 =? 133) || (n2 =? 160)))%nat.

Definition isSpace3 (c1 c2 c3 : ascii) : bool :=
  let n1 := nat_of_ascii c1 in
  let n2 := nat_of_ascii c2 in
  let n3 := nat_of_ascii c3 in
  ((n1 =? 225) && (n2 =? 154) && (n3 =? 128)
   || (n1 =? 226) && (n2 =? 128)
      && ((128 <=? n3) && (n3 <=? 138)
          || (n3 =? 168) || (n3 =? 169) || (n3 =? 175))
   || (n1 =? 226) && (n2 =? 129) && (n3 =? 159)
   || (n1 =? 227) && (n2 =? 128) && (n3 =? 128))%nat.

(** Drops the white-space runes at the front of [s].  With [back] the runes
    are read with their bytes in reverse order, for use on a reversed
    string. *)
Fixpoint trimFront (back : bool) (s : string) : string :=
  match s with
  | EmptyString => EmptyString
  | String c1 r1 =>
      if isSpace1 c1 then trimFront back r1 else
      match r1 with
      | EmptyString => s
      | String c2 r2 =>
          if (if back then isSpace2 c2 c1 else isSpace2 c1 c2)
          then trimFront back r2 else
          match r2 with
          | EmptyString => s
          | String c3 r3 =>
              if (if back then isSpace3 c3 c2 c1 else isSpace3 c1 c2 c3)
              then trimFront back r3 else s
          end
      end
  end.

Definition TrimSpace (s : string) : string :=
  String.rev (trimFront true (String.rev (trimFront false s))).

End Strings.

Module Strconv.

Definition maxUint64 : Z := 2 ^ 64 - 1.
Definition minInt64 : Z := - 2 ^ 63.
Definition maxInt64 : Z := 2 ^ 63 - 1.

(** The loop of [ParseUint(s, 10, 64)] with [n] the number read so far:
    a byte that is no decimal digit is a syntax error with result 0; a
    number beyond [maxUint64] stops the loop at once with [maxUint64] and
    a range error. *)
Fixpoint parseDigits (n : Z) (s : string) : Z * option error :=
  match s with
  | EmptyString => (n, None)
  | String c s' =>
      let d := Z.of_nat (nat_of_ascii c) - 48 in
      if negb ((0 <=? d) && (d <=? 9)) then (0, Some ErrSyntax)
      else if maxUint64 / 10 + 1 <=? n then (maxUint64, Some ErrRange)
      else if maxUint64 <? n * 10 + d then (maxUint64, Some ErrRange)
      else parseDigits (n * 10 + d) s'
  end.

Definition ParseUint (s : string) : Z * option error :=
  match s with
  | EmptyString => (0, Some ErrSyntax)
  | _ => parseDigits 0 s
  end.

(** [ParseInt(s, 10, 0)] with a 64-bit [int] *)
Definition ParseInt (s : string) : Z * option error :=
  match s with
  | EmptyString => (0, Some ErrSyntax)
  | String c s' =>
      let neg := Ascii.eqb c "-" in
      let s1 := if Ascii.eqb c "+" || neg then s' else s in
      let '(un, err) := ParseUint s1 in
      match err with
      | Some ErrRange | None =>
          let cutoff := 2 ^ 63 in
          if negb neg && (cutoff <=? un) then (cutoff - 1, Some ErrRange)
          else if neg && (cutoff <? un) then (- cutoff, Some ErrRange)
          else (if neg then - un else un, None)
      | Some e => (0, Some e)
      end
  end.

Definition Atoi (s : string) : Z * option error := ParseInt s.

(** The byte of the decimal digit [d] *)
Definition digitByte (d : Z) : ascii := ascii_of_nat (Z.to_nat (48 + d)).

(** The decimal digits of [u] in front of [tail], the last digit written
    first, as [formatBits] fills its buffer from the end.  A number of 64
    bits has at most 20 digits, which bounds the rounds. *)
Fixpoint formatBits (rounds : nat) (u : Z) (tail : string) : string :=
  match rounds with
  | O => tail
  | S rounds' =>
      let tail' := String (digitByte (u mod 10)) tail in
      if u <? 10 then tail' else formatBits rounds' (u / 10) tail'
  end.

(** [FormatInt(i, 10)], which is also what [%d] prints *)
Definition FormatInt (i : Z) : string :=
  if i <? 0 then String "-" (formatBits 20 (- i) EmptyString)
  else formatBits 20 i EmptyString.

End Strconv.


(** Go's [int], 64 bits wide: the operations wrap around. *)
Module Int.

Definition wrap (z : Z) : Z := (z + 2 ^ 63) mod 2 ^ 64 - 2 ^ 63.

Definition sub (a b : Z) : Z := wrap (a - b).
Definition mul (a b : Z) : Z := wrap (a * b).

Definition inRange (z : Z) : Prop := - 2 ^ 63 <= z <= 2 ^ 63 - 1.

End Int.

(** ** The persistence driver, as this code sees it *)

Module orm.

(** The value handed to [Filter]: the code passes an [int], a [bool] or a
    [string]. *)
Inductive arg :=
| AInt (i : Z)
| ABool (b : bool)
| AString (s : string).

(** One builder call on a query. *)
Inductive call :=
| CFilter (expr : string) (a : arg)
| COrderBy (exprs : list string)
| CLimit (n : Z)
| COffset (n : Z)
| CRelatedSel.

Record QuerySeter := { table : string; calls : list call }.

Definition QueryTable (name : string) : QuerySeter :=
  {| table := name; calls := [] |}.

Definition then_ (qs : QuerySeter) (c : call) : QuerySeter :=
  {| table := table qs; calls := calls qs ++ [c] |}.

Definition Filter (qs : QuerySeter) (expr : string) (a : arg) := then_ qs (CFilter expr a).
Definition OrderBy (qs : QuerySeter) (exprs : list string) := then_ qs (COrderBy exprs).
Definition Limit (qs : QuerySeter) (n : Z) := then_ qs (CLimit n).
Definition Offset (qs : QuerySeter) (n : Z) := then_ qs (COffset n).
Definition RelatedSel (qs : QuerySeter) := then_ qs CRelatedSel.

(** What the store answers when a query is run: the number of rows counted
    or affected and an error, [None] for Go's nil. *)
Record Ormer := {
  Count : QuerySeter → Z * option error;
  Delete : QuerySeter → Z * option error;
  Update : string → list string → Z * option error;
}.

End orm.

Import Strings Strconv.
Import orm (QuerySeter, QueryTable, Ormer).

(** ** base_repository.go *)

Definition ErrNotFound : error := ErrNoRows.

(** A Go [interface{}] holding what [encoding/json] decodes into it, which is
    also what a filter can hold: nil, a bool, a float64, a string, a slice or
    a map. *)
#[local] Unset Elimination Schemes.
Inductive value :=
| VNil
| VBool (b : bool)
| VFloat (f : float)
| VString (s : string)
| VArray (l : list value)
| VObject (l : list (string * value)).
#[local] Set Elimination Schemes.

Record QueryOptions := {
  Sort : string;
  Order : string;
  Offset : Z;
  Max : Z;
  Filters : gmap string value;
}.

(** The request as the controller reads it: the form values of [c.Input()],
    and what the framework's [Bind] finds for an integer parameter, [None]
    when it leaves the destination as it is. *)
Record Context := {
  Input : gmap string (list string);
  Bind : string → option Z;
}.

(** A [FilterFunc] value is a function or nil ([None]). *)
Definition FilterFunc : Type := option (QuerySeter → string → string → QuerySeter).

(** Calling a nil function value panics. *)
Definition call (ff : FilterFunc) (qs : QuerySeter) (field value : string)
  : option QuerySeter :=
  match ff with
  | Some f => Some (f qs field value)
  | None => None
  end.

Record BaseRepository := {
  Orm : Ormer;
  table : string;
  filterMap : gmap string FilterFunc;
}.

Definition Init (table : string) (ormer : Ormer) : BaseRepository :=
  {| Orm := ormer; table := table; filterMap := ∅ |}.

Definition AddFilter (r : BaseRepository) (field : string) (function : FilterFunc)
  : BaseRepository :=
  {| Orm := Orm r; table := table r;
     filterMap := <[field := function]> (filterMap r) |}.

Definition EntityName (r : BaseRepository) : string := table r.

(** [p] stands for the entity, which only the driver looks into. *)
Definition Update (r : BaseRepository) (p : string) (cols : list string)
  : option error :=
  let '(count, err) := orm.Update (Orm r) p cols in
  match err with
  | Some e => Some e
  | None => if count =? 0 then Some ErrNotFound else err
  end.

Definition Delete (r : BaseRepository) (id : Z) : option error :=
  let '(_, err) :=
    orm.Delete (Orm r) (orm.Filter (QueryTable (table r)) "Id" (orm.AInt id)) in
  err.

(** [s[0]]: indexing past the end panics. *)
Definition byte0 (s : string) : option ascii :=
  match s with
  | String c _ => Some c
  | EmptyString => None
  end.

(** The body of the loop over [sort] in [AddOptions]: what [sort[i]] becomes. *)
Definition sortExpr (reverse : bool) (s : string) : option string :=
  let s := TrimSpace s in
  s ← (if reverse
       then c ← byte0 s;
            Some (if Ascii.eqb c "-" then TrimPrefix s "-" else "-" +:+ s)
       else Some s);
  Some (ReplaceAll s "." "__").

Definition AddOptions (qs : QuerySeter) (options : list QueryOptions)
  : option QuerySeter :=
  match options with
  | [] => Some qs
  | opt :: _ =>
      let sort := Split (Sort opt) "," in
      let reverse := String.eqb (ToLower (Order opt)) "desc" in
      sort ← mapM (sortExpr reverse) sort;
      let qs := if negb (String.eqb (Sort opt) "") then orm.OrderBy qs sort else qs in
      let qs := if 0 <? Max opt then orm.Limit qs (Max opt) else qs in
      let qs := if 0 <? Offset opt then orm.Offset qs (Offset opt) else qs in
      Some qs
  end.

Definition IdFilter (qs : QuerySeter) (field value : string) : QuerySeter :=
  let field := TrimSuffix field "Id" +:+ "__id" in
  let '(id, _) := Atoi value in
  orm.Filter qs field (orm.AInt id).

Definition BooleanFilter (qs : QuerySeter) (field value : string) : QuerySeter :=
  orm.Filter qs field (orm.ABool (String.eqb value "true")).

Definition StartsWithFilter (qs : QuerySeter) (field value : string) : QuerySeter :=
  orm.Filter qs (field +:+ "__istartswith") (orm.AString value).

Definition ContainsWithFilter (qs : QuerySeter) (field value : string) : QuerySeter :=
  orm.Filter qs (field +:+ "__icontains") (orm.AString value).

(** A loop [for k, v := range m] whose body can panic, over the entries in
    the order the runtime yields them. *)
Fixpoint rangeLoop {A S : Type} (body : S → string → A → option S)
    (entries : list (string * A)) (st : S) : option S :=
  match entries with
  | [] => Some st
  | (k, v) :: rest => st' ← body st k v; rangeLoop body rest st'
  end.

(** The driver calls behind [Read], [ReadAll] and [Save]: [QuerySeter.One]
    and [QuerySeter.All] with what they load (an entity is given by its text,
    into which only the driver and the JSON codec look), and [Ormer.Insert]
    with the key it generates. *)
Module driver.

Record Rows := {
  One : QuerySeter → string * option error;
  All : QuerySeter → list string * Z * option error;
  Insert : string → Z * option error;
}.

End driver.

(** [err.Error()] *)
Definition errorText (e : error) : string :=
  match e with
  | ErrSyntax => "invalid syntax"
  | ErrRange => "value out of range"
  | ErrNoRows => "<QuerySeter> no row found"
  | ErrOther msg => msg
  end.

(** [err == ErrNotFound] *)
Definition isErrNotFound (e : error) : bool :=
  match e with
  | ErrNoRows => true
  | _ => false
  end.

(** What the controller sends: the JSON value put into [Data["json"]]. *)
Inductive Payload :=
| JEntity (entity : string)
| JEntities (entities : list string)
| JId (id : Z)
| JEmpty.

(** How a handler ends: with [SendError], whose [Abort] leaves the handler at
    once, or with [ServeJSON] after the headers it has set. *)
Inductive Outcome :=
| Aborted (code message : string)
| Served (headers : list (string * string)) (json : Payload).

(** A request as [BaseRESTController] sees it: the form values and bound
    parameters, the body, the repository that [Prepare] took from [NewRepo],
    and the [Id] of the embedding controller. *)
Record Controller := {
  Ctx : Context;
  RequestBody : string;
  repo : BaseRepository;
  Id : string → Z;
}.

Definition SendError (code message : string) : Outcome := Aborted code message.

(** [fmt.Sprintf("%s %d not found", name, id)] *)
Definition notFound (name : string) (id : Z) : string :=
  name +:+ " " +:+ FormatInt id +:+ " not found".

(** The call the two rules without a registered function make for the field
    [f] and the string [s] of its value. *)
Definition entryCall (f s : string) : orm.call :=
  let fn := ReplaceAll f "." "__" in
  if HasSuffix fn "Id" || HasSuffix fn "__id"
  then orm.CFilter (TrimSuffix fn "Id" +:+ "__id") (orm.AInt (fst (Atoi s)))
  else orm.CFilter (fn +:+ "__istartswith") (orm.AString s).

(** No byte of [s] is a dot. *)
Definition dotFree (s : string) : Prop :=
  "."%char ∉ list_ascii_of_string s.

(** ** Sample data: a store without rows, one iteration order, requests *)

Definition emptyRows : driver.Rows :=
  {| driver.One := λ _, ("", Some ErrNoRows);
     driver.All := λ _, ([], 0, None);
     driver.Insert := λ _, (1, None) |}.

(** A second iteration order: the entries from the last to the first. *)
Definition backOrder (A : Type) (m : gmap string A) : list (string * A) :=
  reverse (map_to_list m).

(** The filters [{"ownerId": "7", "name": "x"}] *)
Definition twoFilters : gmap string value :=
  {[ "ownerId" := VString "7"; "name" := VString "x" ]}.

(** A decoder for the text [null], which leaves the map nil. *)
Definition decodeNull (text : string)
  : option (gmap string value) * option error :=
  (None, None).

(** [GET /widgets?_filters=null&color=red] and
    [GET /widgets?color=red&_sortField=name] *)
Definition nullRequest : Context :=
  {| Input := {[ "_filters" := ["null"]; "color" := ["red"] ]};
     Bind := λ _, None |}.

Definition plainRequest : Context :=
  {| Input := {[ "color" := ["red"]; "_sortField" := ["name"] ]};
     Bind := λ _, None |}.

(** A decoder of entities that takes every body as it is. *)
Definition decodeAny (body : string) : string * option error := (body, None).

(** [DELETE /widgets/7] and [GET /widgets/0] *)
Definition deleteRequest : Controller :=
  {| Ctx := {| Input := ∅;
               Bind := λ key, if String.eqb key ":id" then Some 7 else None |};
     RequestBody := "";
     repo := Init "widget" {| orm.Count := λ _, (0, None);
                              orm.Delete := λ _, (0, None);
                              orm.Update := λ _ _, (0, None) |};
     Id := λ _, 9 |}.

Definition listRequest : Controller :=
  {| Ctx := {| Input := ∅;
               Bind := λ key, if String.eqb key ":id" then Some 0 else None |};
     RequestBody := "";
     repo := Init "widget" {| orm.Count := λ _, (25, Some (ErrOther "gone"));
                              orm.Delete := λ _, (0, None);
                              orm.Update := λ _ _, (0, None) |};
     Id := λ _, 0 |}.

(** [GET /widgets?_sortDir=DESC] *)
Definition descRequest : Controller :=
  {| Ctx := {| Input := {[ "_sortDir" := ["DESC"] ]}; Bind := λ _, None |};
     RequestBody := "";
     repo := Init "widget" {| orm.Count := λ _, (0, None);
                              orm.Delete := λ _, (0, None);
                              orm.Update := λ _ _, (0, None) |};
     Id := λ _, 0 |}.


Definition emptyStore : Ormer :=
  {| orm.Count := λ _, (0, None);
     orm.Delete := λ _, (0, None);
     orm.Update := λ _ _, (0, None) |}.

Definition widgets : BaseRepository := Init "widget" emptyStore.

Definition keyOrder (A : Type) (m : gmap string A) : list (string * A) :=
  map_to_list m.

Definition options (sort order : string) (filters : gmap string value)
  : QueryOptions :=
  {| Sort := sort; Order := order; Offset := 0; Max := 0; Filters := filters |}.

(** A stand-in for [FormatFloat] where no filter value is a float64. *)
Definition noFloat (f : float) : string := "".

(** [QueryUnescape] on a text without escapes. *)
Definition sameText (s : string) : string := s.

(** The filters [{"name": "x"}] and [{"active": true}] *)
Definition nameFilter : gmap string value := {[ "name" := VString "x" ]}.
Definition activeFilter : gmap string value := {[ "active" := VBool true ]}.

(** The text [{"color":"blue"}] *)
Definition colorBlob : string :=
  let q := String (ascii_of_nat 34) EmptyString in
  "{" +:+ q +:+ "color" +:+ q +:+ ":" +:+ q +:+ "blue" +:+ q +:+ "}".

(** A decoder that knows [colorBlob] and rejects every other text. *)
Definition decodeColor (text : string)
  : option (gmap string value) * option error :=
  if String.eqb text colorBlob
  then (Some {[ "color" := VString "blue" ]}, None)
  else (Some ∅, Some (ErrOther "invalid character"))%core.

(** [GET /widgets?_filters={"color":"blue"}&color=red] *)
Definition colorRequest : Context :=
  {| Input := {[ "_filters" := [colorBlob]; "color" := ["red"] ]};
     Bind := λ _, None |}.

(** [GET /widgets?_page=3&_perPage=10] *)
Definition pageRequest : Context :=
  {| Input := {[ "_page" := ["3"]; "_perPage" := ["10"] ]};
     Bind := λ key, if String.eqb key "_page" then Some 3
                    else if String.eqb key "_perPage" then Some 10
                    else None |}.

(** [GET /widgets?_page=1&_perPage=10] *)
Definition firstPageRequest : Context :=
  {| Input := {[ "_page" := ["1"]; "_perPage" := ["10"] ]};
     Bind := λ key, if String.eqb key "_page" then Some 1
                    else if String.eqb key "_perPage" then Some 10
                    else None |}.

(** The field [IdFilter] would filter on if the suffix that sent the entry to
    it were the one stripped: the sentence of the specification. *)
Definition strippedIdField (fn : string) : string :=
  (if HasSuffix fn "__id" then TrimSuffix fn "__id" else TrimSuffix fn "Id")
  +:+ "__id".

Section Ngago.

(** [strconv.FormatFloat(i, 'f', -1, 64)] *)
Variable FormatFloat : float → string.

(** The order in which [range] yields the entries of a map; Go leaves it
    open, every entry comes once. *)
Variable mapRange : ∀ A : Type, gmap string A → list (string * A).
Hypothesis mapRange_perm : ∀ A (m : gmap string A), mapRange A m ≡ₚ map_to_list m.

(** The string [s] of a filter value [v]: the type switch of [AddFilters],
    whose [v.(string)] panics on anything that is no string. *)
Definition filterString (v : value) : option string :=
  match v with
  | VFloat i => Some (FormatFloat i)
  | VString s => Some s
  | _ => None
  end.

(** The body of the loop over the filters in [AddFilters]. *)
Definition addFilterEntry (r : BaseRepository) (qs : QuerySeter)
    (f : string) (v : value) : option QuerySeter :=
  let fn := ReplaceAll f "." "__" in
  s ← filterString v;
  match filterMap r !! f with
  | Some ff => call ff qs fn s
  | None =>
      if HasSuffix fn "Id" || HasSuffix fn "__id"
      then Some (IdFilter qs fn s)
      else Some (StartsWithFilter qs fn s)
  end.

Definition AddFilters (r : BaseRepository) (qs : QuerySeter)
    (options : list QueryOptions) : option QuerySeter :=
  match options with
  | [] => Some qs
  | opt :: _ => rangeLoop (addFilterEntry r) (mapRange _ (Filters opt)) qs
  end.

(** The query [Count] runs. *)
Definition CountQuery (r : BaseRepository) (options : list QueryOptions)
  : option QuerySeter :=
  AddFilters r (QueryTable (table r)) options.

Definition Count (r : BaseRepository) (options : list QueryOptions)
  : option (Z * option error) :=
  qs ← CountQuery r options;
  Some (orm.Count (Orm r) qs).

(** The query [ReadAll] hands to [All], which runs it after [RelatedSel]. *)
Definition ReadAllQuery (r : BaseRepository) (options : list QueryOptions)
  : option QuerySeter :=
  qs ← AddOptions (QueryTable (table r)) options;
  qs ← AddFilters r qs options;
  Some (orm.RelatedSel qs).

(** ** base_rest_controller.go *)

(** [url.QueryUnescape], its first result (empty on an error, which the
    code drops). *)
Variable QueryUnescape : string → string.

(** [json.Unmarshal([]byte(text), &filters)] on the freshly made empty map
    [filters]: the map afterwards, [None] when the decoder has set it to nil
    (the JSON text [null]), and the error, which the code only logs. *)
Variable Unmarshal : string → option (gmap string value) * option error.

(** [Values.Get]: the first value of a key, or the empty string. *)
Definition Get (vs : gmap string (list string)) (key : string) : string :=
  match vs !! key with
  | Some (v :: _) => v
  | _ => ""
  end.

Definition GetString (c : Context) (key : string) : string := Get (Input c) key.

(** The map [filters] before the loop over the query parameters. *)
Definition blobFilters (c : Context) : option (gmap string value) :=
  let filterStr := GetString c "_filters" in
  if negb (String.eqb filterStr "")
  then let filterStr := QueryUnescape filterStr in
       fst (Unmarshal filterStr)
  else Some ∅.

(** The body of the loop over [c.Input()]: [v[0]] panics on an empty slice,
    the assignment panics on a nil map. *)
Definition parseFiltersEntry (filters : option (gmap string value))
    (k : string) (v : list string) : option (option (gmap string value)) :=
  if HasPrefix k "_" then Some filters
  else v0 ← head v;
       m ← filters;
       Some (Some (<[k := VString v0]> m)).

(** A nil map is returned as the empty one: reading it is the same. *)
Definition parseFilters (c : Context) : option (gmap string value) :=
  filters ← rangeLoop parseFiltersEntry (mapRange _ (Input c)) (blobFilters c);
  Some (default ∅ filters).

Definition parseOptions (c : Context) : option QueryOptions :=
  let perPage := default 0 (Bind c "_perPage") in
  let page := default 1 (Bind c "_page") in
  let sortField := Get (Input c) "_sortField" in
  let sortDir := Get (Input c) "_sortDir" in
  filters ← parseFilters c;
  Some {| Sort := sortField;
          Order := ToLower sortDir;
          Offset := Int.mul (Int.sub page 1) perPage;
          Max := perPage;
          Filters := filters |}.

(** The rest of the driver, and [json.Unmarshal(c.Ctx.Input.RequestBody,
    entity)] on a new instance: the entity afterwards and the error. *)
Variable rows : driver.Rows.
Variable UnmarshalEntity : string → string * option error.

Definition One (qs : QuerySeter) : string * option error :=
  driver.One rows (orm.RelatedSel qs).

Definition All (qs : QuerySeter) : list string * Z * option error :=
  driver.All rows (orm.RelatedSel qs).

(** The entity loaded into [data], and the error. *)
Definition Read (r : BaseRepository) (id : Z) : string * option error :=
  One (orm.Filter (QueryTable (table r)) "Id" (orm.AInt id)).

(** The entities loaded into [dataSet], and the error. *)
Definition ReadAll (r : BaseRepository) (options : list QueryOptions)
  : option (list string * option error) :=
  qs ← AddOptions (QueryTable (table r)) options;
  qs ← AddFilters r qs options;
  let '(dataSet, _, err) := All qs in
  Some (dataSet, err).

Definition Save (p : string) : Z * option error := driver.Insert rows p.

(** [BaseRESTController.Get] *)
Definition RESTGet (c : Controller) : option Outcome :=
  let id := default 0 (Bind (Ctx c) ":id") in
  if negb (id =? 0) then
    let '(entity, err) := Read (repo c) id in
    match err with
    | Some e =>
        if isErrNotFound e
        then Some (SendError "404" (notFound (EntityName (repo c)) id))
        else Some (SendError "500" (errorText e))
    | None => Some (Served [] (JEntity entity))
    end
  else
    options ← parseOptions (Ctx c);
    '(entities, err) ← ReadAll (repo c) [options];
    match err with
    | Some e => Some (SendError "500" (errorText e))
    | None =>
        '(count, _) ← Count (repo c) [options];
        Some (Served [("X-Total-Count", FormatInt count)] (JEntities entities))
    end.

(** [BaseRESTController.Put] *)
Definition RESTPut (c : Controller) : Outcome :=
  let '(entity, err) := UnmarshalEntity (RequestBody c) in
  match err with
  | Some e => SendError "422" (errorText e)
  | None =>
      let id := Id c entity in
      match Update (repo c) entity [] with
      | Some e =>
          if isErrNotFound e
          then SendError "404" (notFound (EntityName (repo c)) id)
          else SendError "500" (errorText e)
      | None => Served [] (JEntity entity)
      end
  end.

(** [BaseRESTController.Post] *)
Definition RESTPost (c : Controller) : Outcome :=
  let '(entity, err) := UnmarshalEntity (RequestBody c) in
  match err with
  | Some e => SendError "422" (errorText e)
  | None =>
      let '(id, err) := Save entity in
      match err with
      | Some e => SendError "500" (errorText e)
      | None => Served [] (JId id)
      end
  end.

(** [BaseRESTController.Delete] *)
Definition RESTDelete (c : Controller) : Outcome :=
  let id := default 0 (Bind (Ctx c) ":id") in
  match Delete (repo c) id with
  | Some e =>
      if isErrNotFound e
      then SendError "404" (notFound (EntityName (repo c)) id)
      else SendError "500" (errorText e)
  | None => Served [] JEmpty
  end.

(** ** The library functions and the translation at sample inputs *)

Example Split_samples :
  Split "name,-age" "," = ["name"; "-age"]
  ∧ Split "" "," = [""]
  ∧ Split "a,,b," "," = ["a"; ""; "b"; ""].
Proof. repeat split; reflexivity. Qed.

Example TrimSpace_samples :
  TrimSpace "  a b  " = "a b"
  ∧ TrimSpace "   " = ""
  ∧ TrimSpace (String (ascii_of_nat 194) (String (ascii_of_nat 160) "x")) = "x".
Proof. repeat split; reflexivity. Qed.

Example Replace_suffix_samples :
  ReplaceAll "owner.address.city" "." "__" = "owner__address__city"
  ∧ HasSuffix "ownerId" "Id" = true
  ∧ HasSuffix "owner__id" "Id" = false
  ∧ TrimSuffix "ownerId" "Id" = "owner"
  ∧ TrimPrefix "-age" "-" = "age".
Proof. repeat split; reflexivity. Qed.

Example Atoi_samples :
  Atoi "42" = (42, None)
  ∧ Atoi "-7" = (-7, None)
  ∧ Atoi "+5" = (5, None)
  ∧ Atoi "" = (0, Some ErrSyntax)
  ∧ Atoi "1.5" = (0, Some ErrSyntax)
  ∧ Atoi "-9223372036854775808" = (minInt64, None)
  ∧ Atoi "-9223372036854775809" = (minInt64, Some ErrRange).
Proof. repeat split; reflexivity. Qed.

(** sort [name,-age] with the order flag set: the driver gets [-name], [age]. *)
Example AddOptions_name_age :
  AddOptions (QueryTable "widget") [options "name,-age" "desc" ∅]
  = Some (orm.OrderBy (QueryTable "widget") ["-name"; "age"]).
Proof. reflexivity. Qed.

Example AddOptions_trim_and_paths :
  AddOptions (QueryTable "widget") [options " owner.name , -age" "asc" ∅]
  = Some (orm.OrderBy (QueryTable "widget") ["owner__name"; "-age"]).
Proof. reflexivity. Qed.

(** ** Loops over a map *)

Lemma rangeLoop_panic {A S : Type} (body : S → string → A → option S)
    (entries : list (string * A)) (k : string) (v : A) (st : S) :
  (k, v) ∈ entries → (∀ st', body st' k v = None) →
  rangeLoop body entries st = None.
Proof.
  intros Hin Hbody. revert st.
  induction entries as [|[k' v'] rest IH]; intros st.
  - by apply elem_of_nil in Hin.
  - apply elem_of_cons in Hin as [Heq | Hin]; simpl.
    + injection Heq as <- <-. by rewrite Hbody.
    + destruct (body st k' v') as [st'|]; simpl; [by apply IH | done].
Qed.

Lemma rangeLoop_ext {A S : Type} (body body' : S → string → A → option S)
    (entries : list (string * A)) (st : S) :
  (∀ st' k v, (k, v) ∈ entries → body st' k v = body' st' k v) →
  rangeLoop body entries st = rangeLoop body' entries st.
Proof.
  revert st. induction entries as [|[k v] rest IH]; intros st Hext; [done|].
  simpl. rewrite Hext by left.
  destruct (body' st k v) as [st'|]; simpl; [|done].
  apply IH. intros st'' k' v' Hin. apply Hext. by right.
Qed.

Lemma mapRange_elem {A : Type} (m : gmap string A) (k : string) (v : A) :
  (k, v) ∈ mapRange A m ↔ m !! k = Some v.
Proof. rewrite mapRange_perm. apply elem_of_map_to_list. Qed.

Lemma mapRange_NoDup {A : Type} (m : gmap string A) :
  NoDup (mapRange A m).*1.
Proof. rewrite mapRange_perm. apply NoDup_fst_map_to_list. Qed.

(** ** Delete and Update *)

(** [Update] turns "no row affected" into [ErrNotFound]. *)
Lemma Update_zero_rows (r : BaseRepository) (p : string) (cols : list string) :
  orm.Update (Orm r) p cols = (0, None) → Update r p cols = Some ErrNotFound.
Proof. intros H. unfold Update. by rewrite H. Qed.

(** [Delete] returns the driver's error whatever the number of rows. *)
Lemma Delete_drops_count (r : BaseRepository) (id n : Z) (err : option error) :
  orm.Delete (Orm r) (orm.Filter (QueryTable (table r)) "Id" (orm.AInt id))
    = (n, err) →
  Delete r id = err.
Proof. intros H. unfold Delete. by rewrite H. Qed.

(** C1: when the driver deletes no row and reports no error, [Delete]
    returns nil and not [ErrNotFound]. *)
Theorem Delete_zero_rows_returns_nil (r : BaseRepository) (id : Z) :
  orm.Delete (Orm r) (orm.Filter (QueryTable (table r)) "Id" (orm.AInt id))
    = (0, None) →
  Delete r id = None ∧ Delete r id ≠ Some ErrNotFound.
Proof. intros H. rewrite (Delete_drops_count r id 0 None H). done. Qed.

(** ** AddOptions *)

Lemma sortExpr_empty (s : string) :
  TrimSpace s = "" → sortExpr true s = None.
Proof. intros H. unfold sortExpr. by rewrite H. Qed.

Lemma sortExpr_forward (s : string) :
  sortExpr false s = Some (ReplaceAll (TrimSpace s) "." "__").
Proof. done. Qed.

(** C6: with an empty sort specification and the order flag "desc",
    [AddOptions] panics: the loop runs over the one empty field that
    [Split] yields and reads its first byte. *)
Theorem AddOptions_empty_sort_desc_panics
    (qs : QuerySeter) (opt : QueryOptions) (rest : list QueryOptions) :
  Sort opt = "" → ToLower (Order opt) = "desc" →
  AddOptions qs (opt :: rest) = None.
Proof. intros Hs Ho. unfold AddOptions. by rewrite Hs, Ho. Qed.

(** With any other order flag the empty sort specification is ignored. *)
Lemma AddOptions_empty_sort_forward
    (qs : QuerySeter) (opt : QueryOptions) (rest : list QueryOptions) :
  Sort opt = "" → ToLower (Order opt) ≠ "desc" →
  AddOptions qs (opt :: rest)
  = Some (let qs := if 0 <? Max opt then orm.Limit qs (Max opt) else qs in
          if 0 <? Offset opt then orm.Offset qs (Offset opt) else qs).
Proof.
  intros Hs Ho. unfold AddOptions. rewrite Hs.
  apply String.eqb_neq in Ho. by rewrite Ho.
Qed.

(** C3: with the order flag "desc", a sort specification with a field that
    is empty once trimmed makes [AddOptions] panic, so that no field list
    reaches the driver. *)
Theorem AddOptions_empty_field_desc_panics
    (qs : QuerySeter) (opt : QueryOptions) (rest : list QueryOptions) :
  ToLower (Order opt) = "desc" →
  "" ∈ TrimSpace <$> Split (Sort opt) "," →
  AddOptions qs (opt :: rest) = None.
Proof.
  intros Ho Hin. unfold AddOptions. rewrite Ho. simpl.
  apply list_elem_of_fmap in Hin as (s & Hs & Hin).
  assert (mapM (sortExpr true) (Split (Sort opt) ",") = None) as ->; [|done].
  apply mapM_None_2, Exists_exists. exists s. split; [done|].
  by apply sortExpr_empty.
Qed.

Lemma HasPrefix_dash (c : ascii) (t : string) :
  HasPrefix (String c t) "-" = Ascii.eqb c "-".
Proof. unfold HasPrefix. simpl. by destruct (Ascii.eqb c "-"). Qed.

Lemma ReplaceAll_dash (t : string) :
  ReplaceAll (String "-" t) "." "__" = String "-" (ReplaceAll t "." "__").
Proof. done. Qed.

(** The field handed to the driver for a field that is not empty once
    trimmed: its direction is the exclusive or of its own sign and the
    order flag, its path has [__] for every dot. *)
Lemma sortExpr_direction (reverse : bool) (s : string) :
  TrimSpace s ≠ "" →
  sortExpr reverse s
  = Some ((if xorb (HasPrefix (TrimSpace s) "-") reverse then "-" else "")
          +:+ ReplaceAll (TrimPrefix (TrimSpace s) "-") "." "__").
Proof.
  intros Hne. unfold sortExpr, TrimPrefix.
  destruct (TrimSpace s) as [|c t]; [done|].
  rewrite HasPrefix_dash. simpl.
  destruct reverse, (Ascii.eqb_spec c "-") as [->|Hc]; done.
Qed.

(** The calls [AddOptions] adds to the query when the loop over the sort
    fields goes through. *)
Lemma AddOptions_calls (qs : QuerySeter) (opt : QueryOptions)
    (rest : list QueryOptions) (sort : list string) :
  mapM (sortExpr (String.eqb (ToLower (Order opt)) "desc"))
       (Split (Sort opt) ",") = Some sort →
  AddOptions qs (opt :: rest)
  = Some {| orm.table := orm.table qs;
            orm.calls :=
              orm.calls qs
              ++ (if negb (String.eqb (Sort opt) "") then [orm.COrderBy sort] else [])
              ++ (if 0 <? Max opt then [orm.CLimit (Max opt)] else [])
              ++ (if 0 <? Offset opt then [orm.COffset (Offset opt)] else []) |}.
Proof.
  intros Hsort. unfold AddOptions. rewrite Hsort. simpl. f_equal.
  destruct qs as [t cs].
  destruct (negb _), (0 <? Max opt), (0 <? Offset opt);
    unfold orm.OrderBy, orm.Limit, orm.Offset, orm.then_; simpl;
    f_equal; rewrite <- ?app_assoc, ?app_nil_r; done.
Qed.

(** Fields that are not empty once trimmed reach the driver in their order,
    each as [sortExpr_direction] has it. *)
Lemma AddOptions_order (qs : QuerySeter) (opt : QueryOptions)
    (rest : list QueryOptions) :
  Sort opt ≠ "" →
  Forall (λ s, TrimSpace s ≠ "") (Split (Sort opt) ",") →
  ∃ qs', AddOptions qs (opt :: rest) = Some qs' ∧
    orm.COrderBy
      ((λ s, (if xorb (HasPrefix (TrimSpace s) "-")
                      (String.eqb (ToLower (Order opt)) "desc")
              then "-" else "")
             +:+ ReplaceAll (TrimPrefix (TrimSpace s) "-") "." "__")
       <$> Split (Sort opt) ",")
    ∈ orm.calls qs'.
Proof.
  intros Hne Hall.
  set (expr := λ s, (if xorb (HasPrefix (TrimSpace s) "-")
                             (String.eqb (ToLower (Order opt)) "desc")
                     then "-" else "")
                    +:+ ReplaceAll (TrimPrefix (TrimSpace s) "-") "." "__").
  assert (mapM (sortExpr (String.eqb (ToLower (Order opt)) "desc"))
               (Split (Sort opt) ",") = Some (expr <$> Split (Sort opt) ","))
    as Hsort.
  { apply mapM_Some_2. induction Hall as [|s l Hs _ IH]; constructor; [|done].
    by apply sortExpr_direction. }
  rewrite (AddOptions_calls qs opt rest _ Hsort).
  eexists. split; [done|]. simpl.
  apply String.eqb_neq in Hne. rewrite Hne. simpl. set_solver.
Qed.

(** ** Go's int *)

Lemma wrap_inRange (z : Z) : Int.inRange z → Int.wrap z = z.
Proof.
  unfold Int.inRange, Int.wrap. change (2 ^ 63) with 9223372036854775808.
  change (2 ^ 64) with 18446744073709551616. intros H.
  rewrite Z.mod_small; lia.
Qed.

Lemma wrap_mul_l (a b : Z) : Int.wrap (Int.wrap a * b) = Int.wrap (a * b).
Proof.
  unfold Int.wrap. f_equal.
  rewrite (Z.mod_eq (a + 2 ^ 63) (2 ^ 64)) by done.
  set (q := (a + 2 ^ 63) / 2 ^ 64).
  replace ((a + 2 ^ 63 - 2 ^ 64 * q - 2 ^ 63) * b + 2 ^ 63)
    with (a * b + 2 ^ 63 + (- (q * b)) * 2 ^ 64) by lia.
  apply Z_mod_plus_full.
Qed.

Lemma Int_mul_sub (p n : Z) : Int.mul (Int.sub p 1) n = Int.wrap ((p - 1) * n).
Proof. unfold Int.mul, Int.sub. apply wrap_mul_l. Qed.

(** ** Pagination *)

Lemma AddOptions_pagination (qs : QuerySeter) (opt : QueryOptions)
    (rest : list QueryOptions) (sort : list string) :
  mapM (sortExpr (String.eqb (ToLower (Order opt)) "desc"))
       (Split (Sort opt) ",") = Some sort →
  ∃ qs' new,
    AddOptions qs (opt :: rest) = Some qs'
    ∧ orm.calls qs' = (orm.calls qs ++ new)%list
    ∧ (∀ m, orm.CLimit m ∈ new ↔ m = Max opt ∧ 0 < Max opt)
    ∧ (∀ m, orm.COffset m ∈ new ↔ m = Offset opt ∧ 0 < Offset opt).
Proof.
  intros Hsort.
  do 2 eexists. split; [exact (AddOptions_calls qs opt rest sort Hsort)|].
  split; [done|].
  split; intros m.
  - destruct (negb _), (Z.ltb_spec 0 (Max opt)),
      (Z.ltb_spec 0 (Offset opt)); simpl;
      rewrite ?elem_of_cons, ?elem_of_nil;
      intuition (try congruence; try lia).
  - destruct (negb _), (Z.ltb_spec 0 (Max opt)),
      (Z.ltb_spec 0 (Offset opt)); simpl;
      rewrite ?elem_of_cons, ?elem_of_nil;
      intuition (try congruence; try lia).
Qed.

(** C9: a request with page [p] and per-page [n] is parsed to the offset
    [(p-1)*n], computed on Go's int (the number itself whenever it fits),
    and the max [n]; the query built from these options gets a [Limit] call
    if and only if the max is positive, an [Offset] call if and only if the
    offset is positive. *)
Theorem pagination (c : Context) (p n : Z) (filters : gmap string value) :
  Bind c "_page" = Some p →
  Bind c "_perPage" = Some n →
  parseFilters c = Some filters →
  ∃ opt,
    parseOptions c = Some opt
    ∧ Offset opt = Int.mul (Int.sub p 1) n
    ∧ (Int.inRange ((p - 1) * n) → Offset opt = (p - 1) * n)
    ∧ Max opt = n
    ∧ ∀ qs rest sort,
        mapM (sortExpr (String.eqb (ToLower (Order opt)) "desc"))
             (Split (Sort opt) ",") = Some sort →
        ∃ qs' new,
          AddOptions qs (opt :: rest) = Some qs'
          ∧ orm.calls qs' = (orm.calls qs ++ new)%list
          ∧ (∀ m, orm.CLimit m ∈ new ↔ m = Max opt ∧ 0 < Max opt)
          ∧ (∀ m, orm.COffset m ∈ new ↔ m = Offset opt ∧ 0 < Offset opt).
Proof.
  intros Hp Hn Hf. unfold parseOptions. rewrite Hp, Hn, Hf. simpl.
  match goal with |- ∃ opt, Some ?o = Some opt ∧ _ => set (opt := o) end.
  exists opt. split; [done|].
  split; [done|]. split.
  { intros Hr. simpl. by rewrite Int_mul_sub, wrap_inRange. }
  split; [done|].
  intros qs rest sort Hsort.
  exact (AddOptions_pagination qs opt rest sort Hsort).
Qed.

(** ** Count *)

(** C8: the query [Count] runs and its result are those of the filter
    entries alone, whatever the sort specification, the order flag, the
    offset and the max. *)
Theorem Count_reads_filters_only (r : BaseRepository) (opt : QueryOptions)
    (rest rest' : list QueryOptions) (sort order : string) (offset max : Z) :
  let opt' := {| Sort := sort; Order := order; Offset := offset; Max := max;
                 Filters := Filters opt |} in
  CountQuery r (opt' :: rest')
  = rangeLoop (addFilterEntry r) (mapRange _ (Filters opt))
              (QueryTable (table r))
  ∧ CountQuery r (opt' :: rest') = CountQuery r (opt :: rest)
  ∧ Count r (opt' :: rest') = Count r (opt :: rest).
Proof. done. Qed.

(** ** Filter dispatch *)

(** C4: for a filter entry whose value has a string form, exactly one of
    the three rules is applied: the function registered for the original
    field name, whatever the shape of the name; without one, [IdFilter] when
    the rewritten name ends in [Id] or [__id]; otherwise
    [StartsWithFilter]. *)
Theorem dispatch_rules (r : BaseRepository) (qs : QuerySeter)
    (f : string) (v : value) (s : string) :
  filterString v = Some s →
  let fn := ReplaceAll f "." "__" in
  let idShape := HasSuffix fn "Id" || HasSuffix fn "__id" in
  (∀ ff, filterMap r !! f = Some ff →
         addFilterEntry r qs f v = call ff qs fn s)
  ∧ (filterMap r !! f = None → idShape = true →
     addFilterEntry r qs f v = Some (IdFilter qs fn s))
  ∧ (filterMap r !! f = None → idShape = false →
     addFilterEntry r qs f v = Some (StartsWithFilter qs fn s))
  ∧ ((is_Some (filterMap r !! f)
      ∧ ¬ (filterMap r !! f = None ∧ idShape = true)
      ∧ ¬ (filterMap r !! f = None ∧ idShape = false))
     ∨ (¬ is_Some (filterMap r !! f)
        ∧ (filterMap r !! f = None ∧ idShape = true)
        ∧ ¬ (filterMap r !! f = None ∧ idShape = false))
     ∨ (¬ is_Some (filterMap r !! f)
        ∧ ¬ (filterMap r !! f = None ∧ idShape = true)
        ∧ (filterMap r !! f = None ∧ idShape = false))).
Proof.
  intros Hs fn idShape. unfold addFilterEntry. rewrite Hs. simpl.
  fold fn. fold idShape.
  repeat split.
  - by intros ff ->.
  - by intros -> ->.
  - by intros -> ->.
  - destruct (filterMap r !! f) as [ff|] eqn:Hff.
    + left. repeat split; [by eexists | intros [? _]; done ..].
    + destruct idShape.
      * right; left. repeat split; [by intros [? ?] | intros [_ ?]; done].
      * right; right. repeat split; [by intros [? ?] | intros [_ ?]; done].
Qed.

Lemma filterString_is_Some (v : value) :
  is_Some (filterString v) ↔ (∃ f, v = VFloat f) ∨ (∃ s, v = VString s).
Proof.
  split.
  - intros [s Hs]. destruct v; try done; eauto.
  - intros [[f ->] | [s ->]]; by eexists.
Qed.

Lemma addFilterEntry_no_string (r : BaseRepository) (qs : QuerySeter)
    (f : string) (v : value) :
  filterString v = None → addFilterEntry r qs f v = None.
Proof. intros H. unfold addFilterEntry. by rewrite H. Qed.

(** C10: a filter value has a string form exactly when it is a float64
    or a string, and a filter map with an entry of any other type makes
    [AddFilters] panic. *)
Theorem AddFilters_value_types (r : BaseRepository) (qs : QuerySeter)
    (opt : QueryOptions) (rest : list QueryOptions) (k : string) (v : value) :
  Filters opt !! k = Some v →
  (∀ f, v ≠ VFloat f) → (∀ s, v ≠ VString s) →
  filterString v = None ∧ AddFilters r qs (opt :: rest) = None.
Proof.
  intros Hk Hf Hs.
  assert (filterString v = None) as Hv.
  { destruct (filterString v) eqn:E; [|done].
    destruct (proj1 (filterString_is_Some v)) as [[f ->] | [s' ->]];
      [by eexists | by destruct (Hf f) | by destruct (Hs s')]. }
  split; [done|]. simpl.
  apply (rangeLoop_panic _ _ k v); [by apply mapRange_elem|].
  intros qs'. by apply addFilterEntry_no_string.
Qed.

(** ** Registering nil *)

Lemma addFilterEntry_nil (r : BaseRepository) (qs : QuerySeter)
    (field : string) (v : value) :
  addFilterEntry (AddFilter r field None) qs field v = None.
Proof.
  unfold addFilterEntry, AddFilter. simpl. rewrite lookup_insert_eq.
  by destruct (filterString v).
Qed.

Lemma addFilterEntry_other (r : BaseRepository) (qs : QuerySeter)
    (field : string) (function : FilterFunc) (f : string) (v : value) :
  field ≠ f →
  addFilterEntry (AddFilter r field function) qs f v = addFilterEntry r qs f v.
Proof.
  intros Hne. unfold addFilterEntry, AddFilter. simpl.
  by rewrite lookup_insert_ne.
Qed.

(** C5, as the code has it: once nil is registered for a field, every
    filter map with an entry for that field makes [AddFilters] panic, and
    filter maps without one are dispatched as before the registration. *)
Theorem AddFilter_nil (r : BaseRepository) (field : string)
    (qs : QuerySeter) (opt : QueryOptions) (rest : list QueryOptions) :
  (is_Some (Filters opt !! field) →
   AddFilters (AddFilter r field None) qs (opt :: rest) = None)
  ∧ (Filters opt !! field = None →
     AddFilters (AddFilter r field None) qs (opt :: rest)
     = AddFilters r qs (opt :: rest)).
Proof.
  split.
  - intros [v Hv]. simpl.
    apply (rangeLoop_panic _ _ field v); [by apply mapRange_elem|].
    intros qs'. apply addFilterEntry_nil.
  - intros Hnone. simpl. apply rangeLoop_ext.
    intros qs' k v Hin. apply addFilterEntry_other.
    intros ->. apply mapRange_elem in Hin. congruence.
Qed.

(** ** parseFilters *)

Lemma rangeLoop_cons {A S : Type} (body : S → string → A → option S)
    (k : string) (v : A) (rest : list (string * A)) (st : S) :
  rangeLoop body ((k, v) :: rest) st
  = body st k v ≫= rangeLoop body rest.
Proof. done. Qed.

Lemma parseFiltersEntry_skip (filters : option (gmap string value))
    (k : string) (v : list string) :
  HasPrefix k "_" = true → parseFiltersEntry filters k v = Some filters.
Proof. intros H. unfold parseFiltersEntry. by rewrite H. Qed.

Lemma parseFiltersEntry_set (m : gmap string value)
    (k v0 : string) (vs : list string) :
  HasPrefix k "_" = false →
  parseFiltersEntry (Some m) k (v0 :: vs) = Some (Some (<[k := VString v0]> m)).
Proof. intros H. unfold parseFiltersEntry. by rewrite H. Qed.

(** The loop over the query parameters, started on a map that is not nil,
    when no parameter it reads has an empty list of values. *)
Lemma parseFilters_loop (entries : list (string * list string))
    (m0 : gmap string value) :
  NoDup entries.*1 →
  (∀ k v, (k, v) ∈ entries → HasPrefix k "_" = false → v ≠ []) →
  ∃ m,
    rangeLoop parseFiltersEntry entries (Some m0) = Some (Some m)
    ∧ (∀ k v0 vs, (k, v0 :: vs) ∈ entries → HasPrefix k "_" = false →
                  m !! k = Some (VString v0))
    ∧ (∀ k, (∀ v, (k, v) ∈ entries → HasPrefix k "_" = true) →
            m !! k = m0 !! k).
Proof.
  revert m0. induction entries as [|[k1 v1] rest IH]; intros m0 Hnd Hne.
  { exists m0. split; [done|]. split; [|done]. intros k v0 vs Hin.
    by apply elem_of_nil in Hin. }
  rewrite fmap_cons in Hnd. apply NoDup_cons in Hnd as [Hk1 Hnd].
  assert (∀ v, (k1, v) ∉ rest) as Hfresh.
  { intros v Hin. apply Hk1. apply list_elem_of_fmap. by exists (k1, v). }
  rewrite rangeLoop_cons.
  destruct (HasPrefix k1 "_") eqn:Hpre.
  - rewrite (parseFiltersEntry_skip _ k1 v1 Hpre). simpl.
    destruct (IH m0 Hnd) as (m & Hloop & Hset & Hkeep).
    { intros k v Hin. apply Hne. by right. }
    exists m. split; [done|]. split.
    + intros k v0 vs Hin Hk. apply elem_of_cons in Hin as [Heq|Hin].
      * injection Heq as -> _. congruence.
      * by apply (Hset k v0 vs).
    + intros k Hk. apply Hkeep. intros v Hin. apply (Hk v). by right.
  - destruct v1 as [|w ws]; [by destruct (Hne k1 []); [left|..]|].
    rewrite (parseFiltersEntry_set m0 k1 w ws Hpre). simpl.
    destruct (IH (<[k1 := VString w]> m0) Hnd) as (m & Hloop & Hset & Hkeep).
    { intros k v Hin. apply Hne. by right. }
    exists m. split; [done|]. split.
    + intros k v0 vs Hin Hk. apply elem_of_cons in Hin as [Heq|Hin].
      * injection Heq as -> -> _. rewrite Hkeep.
        -- apply lookup_insert_eq.
        -- intros v Hin. by destruct (Hfresh v).
      * by apply (Hset k v0 vs).
    + intros k Hk. rewrite Hkeep.
      * apply lookup_insert_ne. intros ->.
        specialize (Hk (w :: ws)). rewrite Hpre in Hk.
        by discriminate Hk; left.
      * intros v Hin. apply (Hk v). by right.
Qed.

(** C2, as the code has it: a key that an implicit query parameter
    defines ends with the first value of that parameter, also when the
    JSON blob defines it; the entries of the blob stay for the other
    keys. *)
Theorem parseFilters_query_parameter_wins (c : Context)
    (blob : gmap string value) :
  blobFilters c = Some blob →
  (∀ k v, Input c !! k = Some v → HasPrefix k "_" = false → v ≠ []) →
  ∃ filters,
    parseFilters c = Some filters
    ∧ (∀ k v0 vs, Input c !! k = Some (v0 :: vs) → HasPrefix k "_" = false →
                  filters !! k = Some (VString v0))
    ∧ (∀ k, Input c !! k = None ∨ HasPrefix k "_" = true →
            filters !! k = blob !! k).
Proof.
  intros Hblob Hne. unfold parseFilters. rewrite Hblob.
  destruct (parseFilters_loop (mapRange _ (Input c)) blob)
    as (m & Hloop & Hset & Hkeep).
  { apply mapRange_NoDup. }
  { intros k v Hin. apply Hne. by apply mapRange_elem. }
  exists m. rewrite Hloop. split; [done|]. split.
  - intros k v0 vs Hin. apply (Hset k v0 vs). by apply mapRange_elem.
  - intros k Hk. apply Hkeep. intros v Hin.
    apply mapRange_elem in Hin. destruct Hk as [Hk|Hk]; congruence.
Qed.

(** ** strconv.Atoi *)

Lemma parseDigits_cases (s : string) (n : Z) :
  0 <= n <= maxUint64 →
  (∃ m, parseDigits n s = (m, None) ∧ 0 <= m <= maxUint64)
  ∨ parseDigits n s = (0, Some ErrSyntax)
  ∨ parseDigits n s = (maxUint64, Some ErrRange).
Proof.
  revert n. induction s as [|c s IH]; intros n Hn.
  { left. by exists n. }
  cbn [parseDigits]. set (d := Z.of_nat (nat_of_ascii c) - 48).
  destruct ((0 <=? d) && (d <=? 9)) eqn:Hd; cbn [negb]; [|by right; left].
  apply andb_true_iff in Hd as [H0 H9]. apply Z.leb_le in H0, H9.
  destruct (_ <=? n); [by right; right|].
  destruct (Z.ltb_spec maxUint64 (n * 10 + d)); [by right; right|].
  apply IH. lia.
Qed.

Lemma ParseUint_cases (s : string) :
  (∃ m, ParseUint s = (m, None) ∧ 0 <= m <= maxUint64)
  ∨ ParseUint s = (0, Some ErrSyntax)
  ∨ ParseUint s = (maxUint64, Some ErrRange).
Proof.
  destruct s as [|c s]; [by right; left|].
  apply parseDigits_cases. unfold maxUint64. lia.
Qed.

(** [Atoi] yields a number of the int64 range without an error, or 0 with
    a syntax error, or one of the two bounds of the int64 range with a range
    error. *)
Lemma Atoi_cases (s : string) :
  (∃ m, Atoi s = (m, None) ∧ Int.inRange m)
  ∨ Atoi s = (0, Some ErrSyntax)
  ∨ Atoi s = (maxInt64, Some ErrRange)
  ∨ Atoi s = (minInt64, Some ErrRange).
Proof.
  unfold Atoi, ParseInt. destruct s as [|c s]; [by right; left|].
  match goal with |- context [ParseUint ?x] => set (s1 := x) end.
  destruct (ParseUint_cases s1) as [(m & -> & Hm) | [-> | ->]];
    [| by right; left |].
  - unfold Int.inRange. unfold maxUint64 in Hm.
    change (2 ^ 63) with 9223372036854775808 in *.
    destruct (Ascii.eqb c "-"); simpl.
    + destruct (Z.ltb_spec 9223372036854775808 m);
        [by right; right; right|].
      left. eexists. split; [done|]. lia.
    + destruct (Z.leb_spec 9223372036854775808 m);
        [by right; right; left|].
      left. eexists. split; [done|]. lia.
  - destruct (Ascii.eqb c "-"); simpl.
    + by right; right; right.
    + by right; right; left.
Qed.

(** ** IdFilter *)

Lemma drop_drop (a b : nat) (s : string) :
  Strings.drop a (Strings.drop b s) = Strings.drop (a + b) s.
Proof.
  revert s. induction b as [|b IH]; intros s.
  - by rewrite Nat.add_0_r.
  - rewrite Nat.add_succ_r. destruct s as [|c s]; simpl; [|apply IH].
    by destruct a.
Qed.

(** A name that ends in [__id] does not end in [Id]: [TrimSuffix] leaves
    it as it is. *)
Lemma TrimSuffix_join_id (fn : string) :
  HasSuffix fn "__id" = true → TrimSuffix fn "Id" = fn.
Proof.
  unfold TrimSuffix, HasSuffix. simpl String.length.
  intros H. apply andb_true_iff in H as [Hlen Hsuf].
  apply Nat.leb_le in Hlen. apply String.eqb_eq in Hsuf.
  replace (String.length fn - 2)%nat with (2 + (String.length fn - 4))%nat
    by lia.
  rewrite <- drop_drop, Hsuf. simpl. by rewrite andb_false_r.
Qed.

Lemma IdFilter_call (qs : QuerySeter) (field value : string) :
  IdFilter qs field value
  = orm.Filter qs (TrimSuffix field "Id" +:+ "__id")
               (orm.AInt (fst (Atoi value))).
Proof. unfold IdFilter. by destruct (Atoi value). Qed.

Lemma take_drop (n : nat) (s : string) :
  Strings.take n s +:+ Strings.drop n s = s.
Proof.
  revert s. induction n as [|n IH]; intros [|c s]; simpl; try done.
  change (String c (Strings.take n s +:+ Strings.drop n s) = String c s).
  by rewrite IH.
Qed.

(** A name that ends in [Id] is its stem followed by [Id], and [TrimSuffix]
    yields the stem. *)
Lemma TrimSuffix_Id (fn : string) :
  HasSuffix fn "Id" = true →
  fn = TrimSuffix fn "Id" +:+ "Id".
Proof.
  intros H. unfold TrimSuffix. rewrite H.
  unfold HasSuffix in H. apply andb_true_iff in H as [_ Hsuf].
  apply String.eqb_eq in Hsuf.
  rewrite <- (take_drop (String.length fn - String.length "Id") fn) at 1.
  by rewrite Hsuf.
Qed.

(** C7, for the names that end in [Id]: a filter entry without a registered
    function whose rewritten name is a stem followed by [Id] reaches the
    driver as an equality filter on the stem followed by [__id]; the value is
    the integer [Atoi] returns, which is 0 when the parse fails with a syntax
    error and a bound of the int64 range when it fails with a range error,
    and the parse error never surfaces. *)
Theorem IdFilter_dispatch_Id (r : BaseRepository) (qs : QuerySeter)
    (f : string) (v : value) (s : string) :
  let fn := ReplaceAll f "." "__" in
  filterMap r !! f = None →
  HasSuffix fn "Id" = true →
  filterString v = Some s →
  ∃ stem id,
    fn = stem +:+ "Id"
    ∧ addFilterEntry r qs f v
      = Some (orm.Filter qs (stem +:+ "__id") (orm.AInt id))
    ∧ ((Atoi s = (id, None) ∧ Int.inRange id)
       ∨ (Atoi s = (id, Some ErrSyntax) ∧ id = 0)
       ∨ (Atoi s = (id, Some ErrRange) ∧ (id = maxInt64 ∨ id = minInt64))).
Proof.
  intros fn Hmap Hid Hs. exists (TrimSuffix fn "Id"), (fst (Atoi s)).
  split; [by apply TrimSuffix_Id|].
  unfold addFilterEntry. fold fn. rewrite Hs, Hmap. simpl. rewrite Hid.
  rewrite IdFilter_call. split; [done|].
  destruct (Atoi_cases s) as [(m & -> & Hm) | [-> | [-> | ->]]]; simpl.
  - by left.
  - by right; left.
  - right; right. split; [done|]. by left.
  - right; right. split; [done|]. by right.
Qed.

(** * Further properties of the code *)

(** ** AddOptions: when it panics, what it adds *)

Lemma sortExpr_None (reverse : bool) (s : string) :
  sortExpr reverse s = None ↔ reverse = true ∧ TrimSpace s = "".
Proof.
  split.
  - intros H. destruct reverse; [|by rewrite sortExpr_forward in H].
    split; [done|]. destruct (TrimSpace s) as [|c t] eqn:Ht; [done|].
    assert (TrimSpace s ≠ "") as Hne by (by rewrite Ht).
    by rewrite (sortExpr_direction true s Hne) in H.
  - intros [-> Hs]. by apply sortExpr_empty.
Qed.

(** X1: for a first option value, [AddOptions] panics exactly when the order
    flag is "desc" in any case of letters and the sort specification has a
    field that is empty once trimmed. *)
Theorem AddOptions_panics_iff
    (qs : QuerySeter) (opt : QueryOptions) (rest : list QueryOptions) :
  AddOptions qs (opt :: rest) = None
  ↔ ToLower (Order opt) = "desc"
    ∧ "" ∈ TrimSpace <$> Split (Sort opt) ",".
Proof.
  split.
  - intros H. unfold AddOptions in H.
    destruct (mapM _ _) as [sort|] eqn:Hsort; [done|].
    apply mapM_None_1, Exists_exists in Hsort as (s & Hin & Hs).
    apply sortExpr_None in Hs as [Hrev Hs].
    apply String.eqb_eq in Hrev. split; [done|].
    apply list_elem_of_fmap. by exists s.
  - intros [Ho Hin]. by apply AddOptions_empty_field_desc_panics.
Qed.

(** X2: [AddOptions] leaves the table and the calls already made on the
    query as they are and adds at most an [OrderBy], a [Limit] and an
    [Offset] call, in this order; without options it adds nothing. *)
Theorem AddOptions_extends
    (qs qs' : QuerySeter) (options : list QueryOptions) :
  AddOptions qs options = Some qs' →
  orm.table qs' = orm.table qs
  ∧ ∃ new sort,
      orm.calls qs' = (orm.calls qs ++ new)%list
      ∧ match options with
        | [] => new = []
        | opt :: _ =>
            new `sublist_of`
              [orm.COrderBy sort; orm.CLimit (Max opt); orm.COffset (Offset opt)]
        end.
Proof.
  destruct options as [|opt rest].
  - intros [= <-]. split; [done|]. exists [], []. by rewrite app_nil_r.
  - intros H. destruct (mapM (sortExpr (String.eqb (ToLower (Order opt)) "desc"))
                         (Split (Sort opt) ",")) as [sort|] eqn:Hsort.
    + rewrite (AddOptions_calls qs opt rest sort Hsort) in H.
      injection H as <-. split; [done|]. simpl.
      eexists _, sort. split; [done|].
      destruct (negb _), (0 <? Max opt), (0 <? Offset opt); simpl;
        repeat first [ apply sublist_nil_l | apply sublist_skip
                     | apply sublist_cons ].
    + unfold AddOptions in H. by rewrite Hsort in H.
Qed.

Lemma mapM_total {A B : Type} (g : A → B) (l : list A) :
  mapM (λ x, Some (g x)) l = Some (g <$> l).
Proof. apply mapM_Some_2. induction l; by constructor. Qed.

(** X3: with an order flag that is not "desc" in any case of letters,
    "asc" or the empty one or any other, [AddOptions] does not panic and the
    fields reach the driver trimmed, with their own signs and with [__] for
    every dot. *)
Theorem AddOptions_forward
    (qs : QuerySeter) (opt : QueryOptions) (rest : list QueryOptions) :
  ToLower (Order opt) ≠ "desc" →
  AddOptions qs (opt :: rest)
  = Some
      (let qs := if negb (String.eqb (Sort opt) "")
                 then orm.OrderBy qs
                        ((λ s, ReplaceAll (TrimSpace s) "." "__")
                         <$> Split (Sort opt) ",")
                 else qs in
       let qs := if 0 <? Max opt then orm.Limit qs (Max opt) else qs in
       if 0 <? Offset opt then orm.Offset qs (Offset opt) else qs).
Proof.
  intros Ho. unfold AddOptions. apply String.eqb_neq in Ho. rewrite Ho.
  assert (mapM (sortExpr false) (Split (Sort opt) ",")
          = Some ((λ s, ReplaceAll (TrimSpace s) "." "__")
                  <$> Split (Sort opt) ",")) as ->; [|done].
  apply (mapM_total (λ s, ReplaceAll (TrimSpace s) "." "__")).
Qed.

Lemma lowerByte_idemp (c : ascii) : lowerByte (lowerByte c) = lowerByte c.
Proof.
  unfold lowerByte.
  destruct ((65 <=? nat_of_ascii c)%nat && (nat_of_ascii c <=? 90)%nat)
    eqn:Hc; [|by rewrite Hc].
  apply andb_true_iff in Hc as [H1 H2].
  apply Nat.leb_le in H1, H2.
  rewrite nat_ascii_embedding by lia.
  destruct (Nat.leb_spec 65 (nat_of_ascii c + 32)),
    (Nat.leb_spec (nat_of_ascii c + 32) 90); simpl; try done; lia.
Qed.

Lemma ToLower_idemp (s : string) : ToLower (ToLower s) = ToLower s.
Proof. induction s as [|c s IH]; [done|]. simpl. by rewrite lowerByte_idemp, IH. Qed.

(** X4: [AddOptions] reads the order flag through its lower case only, and
    neither the filters nor the options after the first: two option lists
    whose first values agree on sort, offset and max, and on the order flag up
    to the case of letters, give the same query.  So the lower-casing that
    [parseOptions] does before changes nothing. *)
Theorem AddOptions_order_case (qs : QuerySeter) (o1 o2 : QueryOptions)
    (rest1 rest2 : list QueryOptions) :
  Sort o1 = Sort o2 → Offset o1 = Offset o2 → Max o1 = Max o2 →
  ToLower (Order o1) = ToLower (Order o2) →
  AddOptions qs (o1 :: rest1) = AddOptions qs (o2 :: rest2)
  ∧ AddOptions qs ({| Sort := Sort o1; Order := ToLower (Order o1);
                      Offset := Offset o1; Max := Max o1;
                      Filters := Filters o1 |} :: rest1)
    = AddOptions qs (o1 :: rest1).
Proof.
  intros Hs Hoff Hmax Ho. unfold AddOptions. simpl.
  by rewrite Hs, Hoff, Hmax, Ho, ToLower_idemp.
Qed.

(** ** No dot reaches the driver *)

Lemma list_ascii_of_string_append (a b : string) :
  list_ascii_of_string (a +:+ b)
  = (list_ascii_of_string a ++ list_ascii_of_string b)%list.
Proof. induction a as [|c a IH]; [done|]. simpl. by rewrite IH. Qed.

Lemma dotFree_append (a b : string) :
  dotFree a → dotFree b → dotFree (a +:+ b).
Proof using Type.
  unfold dotFree. rewrite list_ascii_of_string_append, elem_of_app.
  intros Ha Hb [H|H]; [by apply Ha | by apply Hb].
Qed.

Lemma dotFree_take (n : nat) (s : string) :
  dotFree s → dotFree (Strings.take n s).
Proof using Type.
  unfold dotFree. revert n. induction s as [|c s IH]; intros [|n]; simpl;
    intros H Hin; try (by apply elem_of_nil in Hin).
  apply elem_of_cons in Hin as [Hc|Hin].
  - apply H, elem_of_cons. by left.
  - apply (IH n); [|done]. intros Hs. apply H, elem_of_cons. by right.
Qed.

Lemma HasPrefix_byte (c d : ascii) (s : string) :
  HasPrefix (String c s) (String d "") = Ascii.eqb c d.
Proof. unfold HasPrefix. simpl. by destruct (Ascii.eqb c d). Qed.

Lemma ReplaceAll_dot_cons (c : ascii) (s : string) :
  ReplaceAll (String c s) "." "__"
  = if Ascii.eqb c "." then "__" +:+ ReplaceAll s "." "__"
    else String c (ReplaceAll s "." "__").
Proof.
  unfold ReplaceAll. simpl. by rewrite HasPrefix_byte.
Qed.

Lemma dotFree_ReplaceAll (s : string) : dotFree (ReplaceAll s "." "__").
Proof using Type.
  induction s as [|c s IH]; [apply not_elem_of_nil|].
  rewrite ReplaceAll_dot_cons. destruct (Ascii.eqb_spec c ".") as [->|Hc].
  - apply dotFree_append; [|done]. unfold dotFree. simpl.
    rewrite !elem_of_cons, elem_of_nil. intros [H|[H|[]]]; discriminate H.
  - unfold dotFree in *. simpl. rewrite elem_of_cons. intros [H|H]; [|done].
    by destruct Hc.
Qed.

Lemma sortExpr_dotFree (reverse : bool) (s e : string) :
  sortExpr reverse s = Some e → dotFree e.
Proof using Type.
  unfold sortExpr. intros H.
  apply bind_Some in H as (t & _ & [= <-]). apply dotFree_ReplaceAll.
Qed.

(** X5: every field name that [AddOptions] hands to [OrderBy] is free of
    dots: an [OrderBy] call of the query it returns was made before or has
    such names only. *)
Theorem AddOptions_names_dotFree (qs qs' : QuerySeter)
    (options : list QueryOptions) (exprs : list string) :
  AddOptions qs options = Some qs' →
  orm.COrderBy exprs ∈ orm.calls qs' →
  orm.COrderBy exprs ∈ orm.calls qs ∨ Forall dotFree exprs.
Proof using Type.
  destruct options as [|opt rest]; [by intros [= <-]; left|].
  intros H Hin.
  destruct (mapM (sortExpr (String.eqb (ToLower (Order opt)) "desc"))
              (Split (Sort opt) ",")) as [sort|] eqn:Hsort.
  - rewrite (AddOptions_calls qs opt rest sort Hsort) in H.
    injection H as <-. simpl in Hin.
    apply elem_of_app in Hin as [Hin|Hin]; [by left|]. right.
    assert (exprs = sort) as ->.
    { destruct (negb _), (0 <? Max opt), (0 <? Offset opt); simpl in Hin;
        repeat (apply elem_of_cons in Hin as [Hin|Hin];
                [first [by injection Hin | discriminate Hin]|]);
        by apply elem_of_nil in Hin. }
    apply mapM_Some_1 in Hsort. clear Hin.
    induction Hsort as [|s e l k He _ IH]; constructor; [|done].
    exact (sortExpr_dotFree _ s e He).
  - unfold AddOptions in H. by rewrite Hsort in H.
Qed.

(** ** AddFilters: when it panics, what it adds *)

Lemma addFilterEntry_None (r : BaseRepository) (qs : QuerySeter)
    (f : string) (v : value) :
  addFilterEntry r qs f v = None
  ↔ filterString v = None ∨ filterMap r !! f = Some None.
Proof.
  unfold addFilterEntry.
  destruct (filterString v) as [s|]; simpl; [|by split; [left|]].
  destruct (filterMap r !! f) as [[ff|]|]; simpl.
  - split; [done|]. by intros [|].
  - split; [by right|done].
  - destruct (_ || _); split; try done; by intros [|].
Qed.

Lemma rangeLoop_None_iff {A S : Type} (body : S → string → A → option S)
    (P : string → A → Prop) (entries : list (string * A)) (st : S) :
  (∀ st' k v, body st' k v = None ↔ P k v) →
  rangeLoop body entries st = None ↔ ∃ k v, (k, v) ∈ entries ∧ P k v.
Proof.
  intros Hbody. revert st. induction entries as [|[k v] rest IH]; intros st.
  - split; [done|]. intros (k & v & Hin & _). by apply elem_of_nil in Hin.
  - rewrite rangeLoop_cons. destruct (body st k v) as [st'|] eqn:Hb; simpl.
    + rewrite IH. split.
      * intros (k' & v' & Hin & HP). exists k', v'. split; [by right|done].
      * intros (k' & v' & Hin & HP). exists k', v'. split; [|done].
        apply elem_of_cons in Hin as [[= -> ->]|Hin]; [|done].
        pose proof (proj2 (Hbody st k v) HP). congruence.
    + split; [|done]. intros _. exists k, v. split; [by left|].
      by apply (Hbody st).
Qed.

(** X6: for a first option value, [AddFilters] panics exactly when some
    filter entry has a value that is neither a float64 nor a string, or has a
    nil function registered for its field. *)
Theorem AddFilters_panics_iff (r : BaseRepository) (qs : QuerySeter)
    (opt : QueryOptions) (rest : list QueryOptions) :
  AddFilters r qs (opt :: rest) = None
  ↔ ∃ k v, Filters opt !! k = Some v
           ∧ (filterString v = None ∨ filterMap r !! k = Some None).
Proof.
  simpl.
  rewrite (rangeLoop_None_iff _
             (λ k v, filterString v = None ∨ filterMap r !! k = Some None)).
  - split; intros (k & v & Hk & HP); exists k, v; split; try done;
      by apply mapRange_elem.
  - intros st k v. apply addFilterEntry_None.
Qed.

Lemma addFilterEntry_builtin (r : BaseRepository) (qs : QuerySeter)
    (f : string) (v : value) (s : string) :
  filterMap r !! f = None → filterString v = Some s →
  addFilterEntry r qs f v = Some (orm.then_ qs (entryCall f s)).
Proof.
  intros Hf Hs. unfold addFilterEntry, entryCall. rewrite Hs, Hf. simpl.
  destruct (_ || _); [by rewrite IdFilter_call|done].
Qed.

Lemma entryCall_dotFree (f s : string) :
  ∃ e a, entryCall f s = orm.CFilter e a ∧ dotFree e.
Proof using Type.
  unfold entryCall. destruct (_ || _); eexists _, _; (split; [done|]).
  - apply dotFree_append.
    + unfold TrimSuffix. destruct (HasSuffix _ "Id");
        [apply dotFree_take|]; apply dotFree_ReplaceAll.
    + unfold dotFree. simpl. rewrite !elem_of_cons, elem_of_nil.
      intros [H|[H|[H|[H|[]]]]]; discriminate H.
  - apply dotFree_append; [apply dotFree_ReplaceAll|].
    unfold dotFree. vm_compute list_ascii_of_string. intros Hin.
    repeat (apply elem_of_cons in Hin as [Hin|Hin]; [discriminate Hin|]).
    by apply elem_of_nil in Hin.
Qed.

(** The calls of the rules without a registered function, entry by entry. *)
Lemma rangeLoop_builtin (r : BaseRepository)
    (entries : list (string * value)) (qs : QuerySeter) :
  (∀ k v, (k, v) ∈ entries →
          filterMap r !! k = None ∧ is_Some (filterString v)) →
  rangeLoop (addFilterEntry r) entries qs
  = Some {| orm.table := orm.table qs;
            orm.calls :=
              orm.calls qs
              ++ ((λ kv, entryCall kv.1 (default "" (filterString kv.2)))
                  <$> entries) |}.
Proof.
  revert qs. induction entries as [|[k v] rest IH]; intros qs Hall.
  - simpl. rewrite app_nil_r. by destruct qs.
  - destruct (Hall k v) as [Hk [s Hs]]; [by left|].
    rewrite rangeLoop_cons, (addFilterEntry_builtin r qs k v s Hk Hs). simpl.
    rewrite IH by (intros k' v' Hin; apply Hall; by right).
    simpl. rewrite Hs. simpl. by rewrite <- app_assoc.
Qed.

(** X7: when no filter entry has a function registered for its field, as in
    a repository fresh from [Init], and every value is a float64 or a string,
    [AddFilters] does not panic, keeps the table and the calls already made,
    and adds one [Filter] call for each entry, on a name free of dots, and no
    other call. *)
Theorem AddFilters_builtin (r : BaseRepository) (qs : QuerySeter)
    (opt : QueryOptions) (rest : list QueryOptions) :
  (∀ k v, Filters opt !! k = Some v →
          filterMap r !! k = None ∧ is_Some (filterString v)) →
  ∃ new,
    AddFilters r qs (opt :: rest)
    = Some {| orm.table := orm.table qs;
              orm.calls := orm.calls qs ++ new |}
    ∧ length new = size (Filters opt)
    ∧ Forall (λ c, ∃ e a, c = orm.CFilter e a ∧ dotFree e) new.
Proof using mapRange_perm.
  intros Hall. simpl. eexists. split.
  - apply rangeLoop_builtin. intros k v Hin. apply Hall.
    by apply mapRange_elem.
  - split.
    + rewrite length_fmap, mapRange_perm. apply length_map_to_list.
    + apply Forall_fmap, Forall_forall. intros [k v] _. simpl.
      apply entryCall_dotFree.
Qed.

(** ** Update *)

(** X8: [Update] returns nil exactly when the driver reports no error and
    a count other than zero, hands on every error of the driver as it is, and
    returns [ErrNotFound] exactly when the driver reports no error and no row,
    or that very error. *)
Theorem Update_result (r : BaseRepository) (p : string) (cols : list string) :
  (Update r p cols = None
   ↔ ∃ n, orm.Update (Orm r) p cols = (n, None) ∧ n ≠ 0)
  ∧ (∀ e, (orm.Update (Orm r) p cols).2 = Some e → Update r p cols = Some e)
  ∧ (Update r p cols = Some ErrNotFound
     ↔ orm.Update (Orm r) p cols = (0, None)
       ∨ (orm.Update (Orm r) p cols).2 = Some ErrNotFound).
Proof.
  unfold Update. destruct (orm.Update (Orm r) p cols) as [n [e|]]; simpl.
  - split; [|split].
    + split; [done|]. by intros (m & [= _] & _).
    + by intros e' [= ->].
    + split; [by right|]. by intros [[= _]|].
  - destruct (Z.eqb_spec n 0) as [->|Hn]; (split; [|split]).
    + split; [done|]. by intros (m & [= <-] & Hm).
    + done.
    + split; [by left|done].
    + split; [by exists n|done].
    + done.
    + split; [done|]. intros [[= ->]|]; done.
Qed.

(** ** IdFilter and decimal texts *)

(** X9: whatever the value, [IdFilter] adds one [Filter] call whose number
    lies in the int64 range, on the field with a final [Id] removed and
    [__id] appended, and changes nothing else of the query. *)
Theorem IdFilter_in_range (qs : QuerySeter) (field value : string) :
  ∃ id,
    IdFilter qs field value
    = {| orm.table := orm.table qs;
         orm.calls :=
           orm.calls qs
           ++ [orm.CFilter (TrimSuffix field "Id" +:+ "__id") (orm.AInt id)] |}
    ∧ Int.inRange id.
Proof.
  rewrite IdFilter_call. exists (Atoi value).1. split; [done|].
  destruct (Atoi_cases value) as [(m & -> & Hm) | [-> | [-> | ->]]]; simpl;
    [done | ..]; unfold Int.inRange, maxInt64, minInt64; lia.
Qed.

Lemma digitByte_value (d : Z) :
  0 <= d <= 9 → Z.of_nat (nat_of_ascii (digitByte d)) - 48 = d.
Proof.
  intros Hd. unfold digitByte. rewrite nat_ascii_embedding; lia.
Qed.

Lemma parseDigits_digit (n d : Z) (s : string) :
  0 <= d <= 9 → 0 <= n → n * 10 + d <= maxUint64 →
  parseDigits n (String (digitByte d) s) = parseDigits (n * 10 + d) s.
Proof.
  intros Hd Hn Hmax. cbn [parseDigits]. rewrite (digitByte_value d Hd).
  unfold maxUint64 in *. change (2 ^ 64 - 1) with 18446744073709551615 in *.
  change (18446744073709551615 / 10 + 1) with 1844674407370955162.
  destruct (Z.leb_spec 0 d), (Z.leb_spec d 9); try lia. simpl.
  destruct (Z.leb_spec 1844674407370955162 n); [lia|].
  destruct (Z.ltb_spec 18446744073709551615 (n * 10 + d)); [lia|done].
Qed.

Lemma parseDigits_formatBits (rounds : nat) (u : Z) (tail : string) :
  0 <= u <= maxUint64 → u < 10 ^ Z.of_nat rounds →
  parseDigits 0 (formatBits rounds u tail) = parseDigits u tail.
Proof.
  revert u tail. induction rounds as [|rounds IH]; intros u tail Hu Hlt.
  - simpl in *. by replace u with 0 by lia.
  - cbn [formatBits].
    assert (0 <= u mod 10 <= 9) as Hd by (pose proof (Z.mod_pos_bound u 10); lia).
    assert (u = u / 10 * 10 + u mod 10) as Hdiv
      by (rewrite Z.mul_comm; apply Z.div_mod; lia).
    destruct (Z.ltb_spec u 10) as [Hsmall|Hbig].
    + rewrite Z.mod_small by lia.
      by rewrite parseDigits_digit
        by (change maxUint64 with 18446744073709551615 in *; lia).
    + rewrite Nat2Z.inj_succ, Z.pow_succ_r in Hlt by lia.
      pose proof (IH (u / 10)) as IHq.
      change maxUint64 with 18446744073709551615 in Hu, IHq.
      revert Hd Hdiv Hlt IHq.
      generalize (10 ^ Z.of_nat rounds) (u / 10) (u mod 10).
      intros bound q m Hd Hdiv Hlt IHq.
      rewrite IHq by lia.
      rewrite parseDigits_digit
        by (change maxUint64 with 18446744073709551615; lia).
      by rewrite <- Hdiv.
Qed.

Lemma formatBits_head (rounds : nat) (u : Z) (tail : string) :
  ∃ d rest, 0 <= d <= 9
            ∧ formatBits (S rounds) u tail = String (digitByte d) rest.
Proof.
  revert u tail. induction rounds as [|rounds IH]; intros u tail.
  - exists (u mod 10), tail. split; [pose proof (Z.mod_pos_bound u 10); lia|].
    simpl. by destruct (u <? 10).
  - cbn [formatBits]. destruct (u <? 10).
    + exists (u mod 10), tail. split; [pose proof (Z.mod_pos_bound u 10); lia|done].
    + apply IH.
Qed.

Lemma digitByte_no_sign (d : Z) :
  0 <= d <= 9 →
  Ascii.eqb (digitByte d) "+" = false ∧ Ascii.eqb (digitByte d) "-" = false.
Proof.
  intros Hd.
  assert (d = 0 ∨ d = 1 ∨ d = 2 ∨ d = 3 ∨ d = 4 ∨ d = 5 ∨ d = 6 ∨ d = 7
          ∨ d = 8 ∨ d = 9) as Hcases by lia.
  destruct Hcases as [->|[->|[->|[->|[->|[->|[->|[->|[->| ->]]]]]]]]]; done.
Qed.

(** [Atoi] reads the decimal text of every int64 back. *)
Lemma Atoi_FormatInt (i : Z) : Int.inRange i → Atoi (FormatInt i) = (i, None).
Proof.
  unfold Int.inRange. change (2 ^ 63) with 9223372036854775808. intros Hi.
  unfold Atoi, FormatInt. destruct (Z.ltb_spec i 0) as [Hneg|Hpos].
  - unfold ParseInt. change (Ascii.eqb "-" "-") with true.
    change (Ascii.eqb "-" "+") with false. cbn [orb].
    destruct (formatBits_head 19 (- i) "") as (d & tl & Hd & Hhead).
    assert (ParseUint (formatBits 20 (- i) "") = (- i, None)) as ->.
    { unfold ParseUint. rewrite Hhead, <- Hhead.
      rewrite parseDigits_formatBits; [done| |].
      - unfold maxUint64. change (2 ^ 64 - 1) with 18446744073709551615. lia.
      - change (10 ^ Z.of_nat 20) with 100000000000000000000. lia. }
    change (2 ^ 63) with 9223372036854775808. simpl negb. cbn [andb].
    destruct (Z.ltb_spec 9223372036854775808 (- i)); [lia|].
    f_equal. lia.
  - destruct (formatBits_head 19 i "") as (d & tl & Hd & Hhead).
    unfold ParseInt. rewrite Hhead.
    destruct (digitByte_no_sign d Hd) as [-> ->]. cbn [orb]. rewrite <- Hhead.
    assert (ParseUint (formatBits 20 i "") = (i, None)) as ->.
    { unfold ParseUint. rewrite Hhead, <- Hhead.
      rewrite parseDigits_formatBits; [done| |].
      - unfold maxUint64. change (2 ^ 64 - 1) with 18446744073709551615. lia.
      - change (10 ^ Z.of_nat 20) with 100000000000000000000. lia. }
    change (2 ^ 63) with 9223372036854775808. simpl negb. cbn [andb].
    destruct (Z.leb_spec 9223372036854775808 i); [lia|done].
Qed.

(** X10: for a value that is the decimal text of an int64, [IdFilter]
    filters on that very number. *)
Theorem IdFilter_decimal (qs : QuerySeter) (field : string) (n : Z) :
  Int.inRange n →
  IdFilter qs field (FormatInt n)
  = orm.Filter qs (TrimSuffix field "Id" +:+ "__id") (orm.AInt n).
Proof. intros Hn. by rewrite IdFilter_call, Atoi_FormatInt. Qed.

(** ** parseFilters and parseOptions: plain requests, nil maps, defaults *)

Lemma parseFilters_loop_nil (entries : list (string * list string)) :
  rangeLoop parseFiltersEntry entries None
  = if forallb (λ kv, HasPrefix kv.1 "_") entries then Some None else None.
Proof.
  induction entries as [|[k v] rest IH]; [done|].
  rewrite rangeLoop_cons. cbn [forallb fst].
  destruct (HasPrefix k "_") eqn:Hpre.
  - rewrite (parseFiltersEntry_skip _ k v Hpre). simpl. apply IH.
  - assert (parseFiltersEntry None k v = None) as ->; [|done].
    unfold parseFiltersEntry. rewrite Hpre. by destruct (head v).
Qed.

(** X11: when the decoder has left the filter map nil, as for the JSON text
    [null], [parseFilters] panics as soon as the request has one query
    parameter whose name does not start with [_], and returns no filter
    otherwise. *)
Theorem parseFilters_nil_map (c : Context) :
  blobFilters c = None →
  ((∃ k v, Input c !! k = Some v ∧ HasPrefix k "_" = false) →
   parseFilters c = None)
  ∧ ((∀ k v, Input c !! k = Some v → HasPrefix k "_" = true) →
     parseFilters c = Some ∅).
Proof.
  intros Hnil. unfold parseFilters. rewrite Hnil, parseFilters_loop_nil.
  split.
  - intros (k & v & Hk & Hpre).
    destruct (forallb _ _) eqn:Hall; [|done].
    rewrite forallb_forall in Hall.
    specialize (Hall (k, v)). simpl in Hall. rewrite Hpre in Hall.
    discriminate Hall. apply list_elem_of_In. by apply mapRange_elem.
  - intros Hall.
    destruct (forallb _ _) eqn:Hsome; [done|].
    apply not_true_iff_false in Hsome. destruct Hsome.
    apply forallb_forall. intros [k v] Hin. simpl.
    apply (Hall k v). by apply mapRange_elem, list_elem_of_In.
Qed.

(** X12: for a request without a [_filters] parameter whose other
    parameters have a value each, the filters are the first values of the
    parameters whose names do not start with [_], as strings, and nothing
    else; so no repository without a nil registration panics on them. *)
Theorem parseFilters_plain (c : Context) :
  GetString c "_filters" = "" →
  (∀ k v, Input c !! k = Some v → HasPrefix k "_" = false → v ≠ []) →
  ∃ filters,
    parseFilters c = Some filters
    ∧ (∀ k, filters !! k
            = if HasPrefix k "_" then None
              else (λ v, VString (default "" (head v))) <$> Input c !! k)
    ∧ (∀ r qs sort order offset max rest,
         (∀ k, filterMap r !! k ≠ Some None) →
         is_Some (AddFilters r qs
                    ({| Sort := sort; Order := order; Offset := offset;
                        Max := max; Filters := filters |} :: rest))).
Proof.
  intros Hblob Hne. unfold parseFilters, blobFilters. rewrite Hblob. simpl.
  destruct (parseFilters_loop (mapRange _ (Input c)) ∅)
    as (m & Hloop & Hset & Hkeep).
  { apply mapRange_NoDup. }
  { intros k v Hin. apply Hne. by apply mapRange_elem. }
  exists m. rewrite Hloop. split; [done|].
  assert (∀ k, m !! k
               = if HasPrefix k "_" then None
                 else (λ v, VString (default "" (head v))) <$> Input c !! k)
    as Hm.
  { intros k. destruct (HasPrefix k "_") eqn:Hpre.
    - rewrite Hkeep; [done|]. intros v _. done.
    - destruct (Input c !! k) as [[|v0 vs]|] eqn:Hk; simpl.
      + by destruct (Hne k [] Hk Hpre).
      + apply (Hset k v0 vs); [by apply mapRange_elem|done].
      + rewrite Hkeep; [done|]. intros v Hin.
        apply mapRange_elem in Hin. congruence. }
  split; [done|].
  intros r qs sort order offset max rest Hreg. simpl.
  destruct (rangeLoop (addFilterEntry r) (mapRange value m) qs) eqn:Hrun;
    [by eexists|].
  apply (rangeLoop_None_iff _
           (λ k v, filterString v = None ∨ filterMap r !! k = Some None))
    in Hrun; [|intros; apply addFilterEntry_None].
  destruct Hrun as (k & v & Hin & [Hv|Hk]); [|by destruct (Hreg k)].
  apply mapRange_elem in Hin. rewrite Hm in Hin.
  destruct (HasPrefix k "_"); [done|].
  destruct (Input c !! k); simpl in Hin; [|done].
  injection Hin as <-. done.
Qed.

Lemma Int_mul_zero (a b : Z) : a = 0 ∨ b = 0 → Int.mul a b = 0.
Proof. intros [-> | ->]; unfold Int.mul; by rewrite ?Z.mul_0_r. Qed.

Lemma AddOptions_no_offset (qs qs' : QuerySeter) (opt : QueryOptions)
    (rest : list QueryOptions) :
  Offset opt = 0 →
  AddOptions qs (opt :: rest) = Some qs' →
  (∀ n, orm.COffset n ∈ orm.calls qs' → orm.COffset n ∈ orm.calls qs)
  ∧ (Max opt = 0 →
     ∀ n, orm.CLimit n ∈ orm.calls qs' → orm.CLimit n ∈ orm.calls qs).
Proof.
  intros Hoff Hadd.
  destruct (mapM (sortExpr (String.eqb (ToLower (Order opt)) "desc"))
              (Split (Sort opt) ",")) as [sort|] eqn:Hsort.
  - rewrite (AddOptions_calls qs opt rest sort Hsort) in Hadd.
    injection Hadd as <-. rewrite Hoff. cbn [orm.calls]. split.
    + intros n. rewrite !elem_of_app.
      destruct (negb _), (0 <? Max opt); simpl;
        rewrite ?elem_of_cons, ?elem_of_nil; intuition congruence.
    + intros -> n. rewrite !elem_of_app.
      destruct (negb _); simpl;
        rewrite ?elem_of_cons, ?elem_of_nil; intuition congruence.
  - unfold AddOptions in Hadd. by rewrite Hsort in Hadd.
Qed.

(** X13: a request bound to the page 1, or to the size of page 0, is
    parsed to the offset 0, so that [AddOptions] makes no [Offset] call;
    with the size of page 0 it makes no [Limit] call either. *)
Theorem parseOptions_unpaged (c : Context) (p n : Z)
    (filters : gmap string value) :
  Bind c "_page" = Some p →
  Bind c "_perPage" = Some n →
  p = 1 ∨ n = 0 →
  parseFilters c = Some filters →
  ∃ opt,
    parseOptions c = Some opt
    ∧ Offset opt = 0
    ∧ Max opt = n
    ∧ ∀ qs qs' rest,
        AddOptions qs (opt :: rest) = Some qs' →
        (∀ m, orm.COffset m ∈ orm.calls qs' → orm.COffset m ∈ orm.calls qs)
        ∧ (n = 0 →
           ∀ m, orm.CLimit m ∈ orm.calls qs' → orm.CLimit m ∈ orm.calls qs).
Proof.
  intros Hp Hn Hpage Hf. unfold parseOptions. rewrite Hp, Hn, Hf. simpl.
  match goal with |- ∃ opt, Some ?o = Some opt ∧ _ => set (opt := o) end.
  assert (Offset opt = 0) as Hoff.
  { simpl. apply Int_mul_zero. destruct Hpage as [-> | ->]; [by left|by right]. }
  exists opt. split; [done|]. split; [done|]. split; [done|].
  intros qs qs' rest Hadd.
  exact (AddOptions_no_offset qs qs' opt rest Hoff Hadd).
Qed.

(** ** The handlers of the controller *)

Lemma Read_query (r : BaseRepository) (id : Z) :
  Read r id
  = driver.One rows
      {| orm.table := table r;
         orm.calls := [orm.CFilter "Id" (orm.AInt id); orm.CRelatedSel] |}.
Proof. done. Qed.

(** X14: [Get] with a bound identifier other than 0 asks the driver for the
    one row of the table whose [Id] is that number, never panics and never
    parses the query options; the answer is the entity when the driver
    reports no error, 404 with the name and the number exactly when it
    reports [ErrNotFound], and 500 with the text of any other error. *)
Theorem RESTGet_single (c : Controller) (id : Z) :
  Bind (Ctx c) ":id" = Some id → id ≠ 0 →
  let result :=
    driver.One rows
      {| orm.table := table (repo c);
         orm.calls := [orm.CFilter "Id" (orm.AInt id); orm.CRelatedSel] |} in
  ∃ o,
    RESTGet c = Some o
    ∧ (result.2 = None → o = Served [] (JEntity result.1))
    ∧ (o = Aborted "404" (table (repo c) +:+ " " +:+ FormatInt id +:+ " not found")
       ↔ result.2 = Some ErrNotFound)
    ∧ (∀ e, result.2 = Some e → e ≠ ErrNotFound →
            o = Aborted "500" (errorText e)).
Proof.
  intros Hid Hne result. unfold RESTGet. rewrite Hid. simpl.
  destruct (Z.eqb_spec id 0) as [|_]; [done|]. simpl.
  rewrite Read_query. fold result. destruct result as [entity [e|]]; simpl.
  - destruct e; simpl; eexists; (split; [done|]);
      (split; [done|]); (split; [done|]); intros e' [= <-] He'; done.
  - eexists. split; [done|]. split; [done|]. split; [done|]. done.
Qed.

Lemma AddFilters_panic_any_query (r : BaseRepository) (qs1 qs2 : QuerySeter)
    (options : list QueryOptions) :
  is_Some (AddFilters r qs1 options) → is_Some (AddFilters r qs2 options).
Proof.
  destruct options as [|opt rest]; [by eexists|]. simpl. intros [q1 H1].
  destruct (rangeLoop (addFilterEntry r) (mapRange value (Filters opt)) qs2)
    eqn:H2; [by eexists|].
  set (P := λ (k : string) v,
              filterString v = None ∨ filterMap r !! k = Some None).
  assert (∀ st k v, addFilterEntry r st k v = None ↔ P k v) as Hbody
    by (intros; apply addFilterEntry_None).
  apply (rangeLoop_None_iff _ P _ qs2 Hbody) in H2.
  apply (rangeLoop_None_iff _ P _ qs1 Hbody) in H2. congruence.
Qed.

(** X15: [Get] without an identifier, or with the identifier 0, reads the
    collection and never a single entity: it ends in 500 or serves a list of
    entities under one header [X-Total-Count].  When the list is read
    without an error, the count cannot panic and the header is the decimal
    text of the number the driver counts for the filters alone, also when
    counting fails. *)
Theorem RESTGet_collection (c : Controller) :
  default 0 (Bind (Ctx c) ":id") = 0 →
  (∀ o, RESTGet c = Some o →
        (∃ message, o = Aborted "500" message)
        ∨ (∃ total entities,
             o = Served [("X-Total-Count", total)] (JEntities entities)))
  ∧ (∀ options entities,
       parseOptions (Ctx c) = Some options →
       ReadAll (repo c) [options] = Some (entities, None) →
       ∃ qs,
         CountQuery (repo c) [options] = Some qs
         ∧ RESTGet c
           = Some (Served
                     [("X-Total-Count",
                       FormatInt (orm.Count (Orm (repo c)) qs).1)]
                     (JEntities entities))).
Proof.
  intros Hid. unfold RESTGet. rewrite Hid. simpl. split.
  - intros o Hrun.
    destruct (parseOptions (Ctx c)) as [options|]; [|done]. simpl in Hrun.
    destruct (ReadAll (repo c) [options]) as [[entities [e|]]|];
      simpl in Hrun; [| |done].
    + injection Hrun as <-. left. by eexists.
    + destruct (Count (repo c) [options]) as [[count err]|];
        simpl in Hrun; [|done].
      injection Hrun as <-. right. by eexists _, _.
  - intros options entities -> Hread. simpl. rewrite Hread. simpl.
    assert (is_Some (CountQuery (repo c) [options])) as [qs Hqs].
    { unfold ReadAll in Hread.
      apply bind_Some in Hread as (qs1 & _ & Hread).
      apply bind_Some in Hread as (qs2 & Hf & _).
      apply (AddFilters_panic_any_query _ qs1). exists qs2. exact Hf. }
    exists qs. split; [done|]. unfold Count. rewrite Hqs. simpl.
    by destruct (orm.Count _ _).
Qed.

(** X16: a request for the collection with the direction "desc", in any
    case of letters, and without a sort field makes [Get] panic. *)
Theorem RESTGet_desc_panics (c : Controller) :
  default 0 (Bind (Ctx c) ":id") = 0 →
  Get (Input (Ctx c)) "_sortField" = "" →
  ToLower (Get (Input (Ctx c)) "_sortDir") = "desc" →
  RESTGet c = None.
Proof.
  intros Hid Hfield Hdir. unfold RESTGet. rewrite Hid. simpl.
  unfold parseOptions. destruct (parseFilters (Ctx c)) as [filters|]; [|done].
  simpl. unfold ReadAll, AddOptions. simpl.
  by rewrite Hfield, ToLower_idemp, Hdir.
Qed.

(** X17: the [Delete] handler answers by the error of the driver alone: the
    empty object when there is none, whatever the number of rows deleted, so
    also when the row does not exist; 404 exactly when the error is
    [ErrNotFound]; 500 with the text of any other error. *)
Theorem RESTDelete_result (c : Controller) :
  let id := default 0 (Bind (Ctx c) ":id") in
  let result :=
    orm.Delete (Orm (repo c))
      {| orm.table := table (repo c);
         orm.calls := [orm.CFilter "Id" (orm.AInt id)] |} in
  (RESTDelete c = Served [] JEmpty ↔ result.2 = None)
  ∧ (RESTDelete c
     = Aborted "404" (table (repo c) +:+ " " +:+ FormatInt id +:+ " not found")
     ↔ result.2 = Some ErrNotFound)
  ∧ (∀ e, result.2 = Some e → e ≠ ErrNotFound →
          RESTDelete c = Aborted "500" (errorText e)).
Proof.
  intros id result. unfold RESTDelete, Delete. fold id.
  change (orm.Delete (Orm (repo c))
            (orm.Filter (QueryTable (table (repo c))) "Id" (orm.AInt id)))
    with result.
  clearbody result. destruct result as [n [e|]]; [destruct e|]; simpl;
    (split; [by split|]); (split; [by split|]); intros e' [= <-] He'; done.
Qed.

(** X18: [Put] answers 422 with the text of the error when the body does
    not decode; otherwise it updates the decoded entity with all its columns
    and answers the entity, or, when the driver updates no row, 404 naming
    the identifier that [Id] finds in the entity of the body; the identifier
    of the path and the query parameters play no role. *)
Theorem RESTPut_result (c : Controller) :
  let decoded := UnmarshalEntity (RequestBody c) in
  let updated := orm.Update (Orm (repo c)) decoded.1 [] in
  (∀ e, decoded.2 = Some e → RESTPut c = Aborted "422" (errorText e))
  ∧ (decoded.2 = None → updated = (0, None) →
     RESTPut c
     = Aborted "404"
         (table (repo c) +:+ " " +:+ FormatInt (Id c decoded.1) +:+ " not found"))
  ∧ (decoded.2 = None → updated.2 = None → updated.1 ≠ 0 →
     RESTPut c = Served [] (JEntity decoded.1))
  ∧ (∀ ctx, RESTPut {| Ctx := ctx; RequestBody := RequestBody c;
                       repo := repo c; Id := Id c |} = RESTPut c).
Proof.
  intros decoded updated.
  refine (conj _ (conj _ (conj _ (λ ctx, eq_refl))));
    subst decoded updated; unfold RESTPut;
    destruct (UnmarshalEntity (RequestBody c)) as [entity [e|]]; simpl;
    try done.
  - by intros e' [= <-].
  - intros _ Hup. by rewrite (Update_zero_rows _ _ _ Hup).
  - intros _ Herr Hcount. unfold Update.
    destruct (orm.Update (Orm (repo c)) entity []) as [n err].
    simpl in *. subst err. by destruct (Z.eqb_spec n 0).
Qed.

(** [Post] answers 422 when the body does not decode, 500 when the
    insertion fails, and otherwise the generated key alone. *)
Lemma RESTPost_result (c : Controller) :
  let decoded := UnmarshalEntity (RequestBody c) in
  let inserted := driver.Insert rows decoded.1 in
  (∀ e, decoded.2 = Some e → RESTPost c = Aborted "422" (errorText e))
  ∧ (∀ e, decoded.2 = None → inserted.2 = Some e →
          RESTPost c = Aborted "500" (errorText e))
  ∧ (decoded.2 = None → inserted.2 = None →
     RESTPost c = Served [] (JId inserted.1)).
Proof.
  intros decoded inserted.
  refine (conj _ (conj _ _));
    subst decoded inserted; unfold RESTPost, Save;
    destruct (UnmarshalEntity (RequestBody c)) as [entity [e|]]; simpl;
    try done.
  - by intros e' [= <-].
  - intros e _ He. destruct (driver.Insert rows entity) as [id err].
    simpl in He. by subst err.
  - intros _ He. destruct (driver.Insert rows entity) as [id err].
    simpl in He. by subst err.
Qed.

End Ngago.

(** ** The theorems at sample inputs *)

Lemma keyOrder_perm (A : Type) (m : gmap string A) :
  keyOrder A m ≡ₚ map_to_list m.
Proof. reflexivity. Defined.

(** [Delete(7)] on a store without rows returns nil. *)
Lemma Delete_zero_rows_returns_nil_witness :
  orm.Delete (Orm widgets)
    (orm.Filter (QueryTable (table widgets)) "Id" (orm.AInt 7)) = (0, None)
  ∧ Delete widgets 7 = None
  ∧ Delete widgets 7 ≠ Some ErrNotFound.
Proof.
  split; [reflexivity|].
  apply (Delete_zero_rows_returns_nil widgets 7). reflexivity.
Defined.

(** [_sortDir=desc] without [_sortField] *)
Lemma AddOptions_empty_sort_desc_panics_witness :
  Sort (options "" "DESC" ∅) = ""
  ∧ ToLower (Order (options "" "DESC" ∅)) = "desc"
  ∧ AddOptions (QueryTable "widget") [options "" "DESC" ∅] = None.
Proof.
  split; [reflexivity|]. split; [reflexivity|].
  apply (AddOptions_empty_sort_desc_panics (QueryTable "widget")
           (options "" "DESC" ∅) []); reflexivity.
Defined.

(** [_sortField=name,&_sortDir=desc] *)
Lemma AddOptions_empty_field_desc_panics_witness :
  ToLower (Order (options "name," "desc" ∅)) = "desc"
  ∧ "" ∈ TrimSpace <$> Split (Sort (options "name," "desc" ∅)) ","
  ∧ AddOptions (QueryTable "widget") [options "name," "desc" ∅] = None.
Proof.
  assert ("" ∈ TrimSpace <$> Split (Sort (options "name," "desc" ∅)) ",")
    as Hin.
  { change ("" ∈ ["name"; ""]). apply elem_of_cons. right. by left. }
  split; [reflexivity|]. split; [exact Hin|].
  apply (AddOptions_empty_field_desc_panics (QueryTable "widget")
           (options "name," "desc" ∅) []); [reflexivity | exact Hin].
Defined.

(** [GET /widgets?_page=3&_perPage=10]: offset 20, max 10, both applied. *)
Lemma pagination_witness :
  Bind pageRequest "_page" = Some 3
  ∧ Bind pageRequest "_perPage" = Some 10
  ∧ parseFilters keyOrder sameText decodeColor pageRequest = Some ∅
  ∧ ∃ opt,
      parseOptions keyOrder sameText decodeColor pageRequest = Some opt
      ∧ Offset opt = 20 ∧ Max opt = 10.
Proof.
  split; [reflexivity|]. split; [reflexivity|]. split; [reflexivity|].
  destruct (pagination keyOrder sameText decodeColor pageRequest 3 10 ∅)
    as (opt & Hopt & Hoff & _ & Hmax & _); [reflexivity ..|].
  exists opt. split; [exact Hopt|]. split; [exact Hoff | exact Hmax].
Defined.

(** A function registered for [ownerId] is applied, not [IdFilter]. *)
Lemma dispatch_rules_witness :
  filterString noFloat (VString "true") = Some "true"
  ∧ addFilterEntry noFloat (AddFilter widgets "ownerId" (Some BooleanFilter))
      (QueryTable "widget") "ownerId" (VString "true")
    = Some (BooleanFilter (QueryTable "widget") "ownerId" "true").
Proof.
  split; [reflexivity|].
  destruct (dispatch_rules noFloat
              (AddFilter widgets "ownerId" (Some BooleanFilter))
              (QueryTable "widget") "ownerId" (VString "true") "true")
    as (Hover & _); [reflexivity|].
  apply (Hover (Some BooleanFilter)). reflexivity.
Defined.

(** The filter [{"active": true}] from a JSON blob *)
Lemma AddFilters_value_types_witness :
  (∀ A (m : gmap string A), keyOrder A m ≡ₚ map_to_list m)
  ∧ Filters (options "" "" activeFilter) !! "active" = Some (VBool true)
  ∧ (∀ f, VBool true ≠ VFloat f)
  ∧ (∀ s, VBool true ≠ VString s)
  ∧ filterString noFloat (VBool true) = None
  ∧ AddFilters noFloat keyOrder widgets (QueryTable "widget")
      [options "" "" activeFilter] = None.
Proof.
  split; [exact keyOrder_perm|]. split; [reflexivity|].
  split; [discriminate|]. split; [discriminate|].
  apply (AddFilters_value_types noFloat keyOrder keyOrder_perm widgets
           (QueryTable "widget") (options "" "" activeFilter) []
           "active" (VBool true)); [reflexivity | discriminate ..].
Defined.

(** [GET /widgets?_filters={"color":"blue"}&color=red] filters on red. *)
Lemma parseFilters_query_parameter_wins_witness :
  (∀ A (m : gmap string A), keyOrder A m ≡ₚ map_to_list m)
  ∧ blobFilters sameText decodeColor colorRequest
    = Some {[ "color" := VString "blue" ]}
  ∧ (∀ k v, Input colorRequest !! k = Some v → HasPrefix k "_" = false → v ≠ [])
  ∧ ∃ filters,
      parseFilters keyOrder sameText decodeColor colorRequest = Some filters
      ∧ filters !! "color" = Some (VString "red")
      ∧ filters !! "size" = None.
Proof.
  assert (∀ k v, Input colorRequest !! k = Some v →
                 HasPrefix k "_" = false → v ≠ []) as Hne.
  { intros k v Hk _ ->. simpl in Hk.
    apply lookup_insert_Some in Hk as [[_ Hk] | [_ Hk]]; [discriminate|].
    apply lookup_singleton_Some in Hk as [_ Hk]. discriminate. }
  split; [exact keyOrder_perm|]. split; [reflexivity|]. split; [exact Hne|].
  destruct (parseFilters_query_parameter_wins keyOrder keyOrder_perm sameText
              decodeColor colorRequest {[ "color" := VString "blue" ]})
    as (filters & Hparse & Hset & Hkeep); [reflexivity | exact Hne |].
  exists filters. split; [exact Hparse|]. split.
  - apply (Hset "color" "red" []); reflexivity.
  - rewrite (Hkeep "size"); [reflexivity | left; reflexivity].
Defined.

(** C2 fails: the blob says blue, the query parameter says red, and the
    filter that comes out is red. *)
Lemma blob_value_overwritten :
  ∃ blob filters,
    blobFilters sameText decodeColor colorRequest = Some blob
    ∧ blob !! "color" = Some (VString "blue")
    ∧ Input colorRequest !! "color" = Some ["red"]
    ∧ parseFilters keyOrder sameText decodeColor colorRequest = Some filters
    ∧ filters !! "color" = Some (VString "red")
    ∧ filters !! "color" ≠ blob !! "color".
Proof.
  eexists _, _. split; [reflexivity|]. split; [reflexivity|].
  split; [reflexivity|]. split; [reflexivity|]. split; [reflexivity|].
  vm_compute. discriminate.
Qed.

(** Registering nil for [name], then filtering on [name] or on nothing of
    the kind. *)
Lemma AddFilter_nil_witness :
  (∀ A (m : gmap string A), keyOrder A m ≡ₚ map_to_list m)
  ∧ AddFilters noFloat keyOrder (AddFilter widgets "name" None)
      (QueryTable "widget") [options "" "" nameFilter] = None
  ∧ AddFilters noFloat keyOrder (AddFilter widgets "name" None)
      (QueryTable "widget") [options "" "" activeFilter]
    = AddFilters noFloat keyOrder widgets
        (QueryTable "widget") [options "" "" activeFilter].
Proof.
  split; [exact keyOrder_perm|]. split.
  - apply (AddFilter_nil noFloat keyOrder keyOrder_perm widgets "name"
             (QueryTable "widget") (options "" "" nameFilter) []).
    exists (VString "x"). reflexivity.
  - apply (AddFilter_nil noFloat keyOrder keyOrder_perm widgets "name"
             (QueryTable "widget") (options "" "" activeFilter) []).
    reflexivity.
Defined.

(** C5 fails: the same filter is a prefix match without a registration and
    a panic once nil is registered. *)
Lemma nil_filter_not_absent :
  AddFilters noFloat keyOrder widgets
    (QueryTable "widget") [options "" "" nameFilter]
  = Some (StartsWithFilter (QueryTable "widget") "name" "x")
  ∧ AddFilters noFloat keyOrder (AddFilter widgets "name" None)
      (QueryTable "widget") [options "" "" nameFilter]
    = None.
Proof. split; reflexivity. Qed.

(** The filter [ownerId=7x] *)
Lemma IdFilter_dispatch_Id_witness :
  filterMap widgets !! "ownerId" = None
  ∧ HasSuffix (ReplaceAll "ownerId" "." "__") "Id" = true
  ∧ filterString noFloat (VString "7x") = Some "7x"
  ∧ ∃ stem id,
      "ownerId" = stem +:+ "Id"
      ∧ addFilterEntry noFloat widgets (QueryTable "widget") "ownerId"
          (VString "7x")
        = Some (orm.Filter (QueryTable "widget") (stem +:+ "__id")
                  (orm.AInt id))
      ∧ id = 0.
Proof.
  split; [reflexivity|]. split; [reflexivity|]. split; [reflexivity|].
  destruct (IdFilter_dispatch_Id noFloat widgets (QueryTable "widget")
              "ownerId" (VString "7x") "7x")
    as (stem & id & Hstem & Hcall & Hid); [reflexivity ..|].
  exists stem, id. split; [exact Hstem|]. split; [exact Hcall|].
  destruct Hid as [[H _] | [[_ H] | [H _]]];
    [discriminate H | exact H | discriminate H].
Defined.

(** C7 fails: the value of [ownerId=9223372036854775808] fails to parse,
    with a range error, and the driver is handed the largest int64, not 0. *)
Lemma IdFilter_range_error_not_zero :
  filterMap widgets !! "ownerId" = None
  ∧ HasSuffix (ReplaceAll "ownerId" "." "__") "Id" = true
  ∧ Atoi "9223372036854775808" = (9223372036854775807, Some ErrRange)
  ∧ addFilterEntry noFloat widgets (QueryTable "widget") "ownerId"
      (VString "9223372036854775808")
    = Some (orm.Filter (QueryTable "widget") "owner__id"
              (orm.AInt 9223372036854775807))
  ∧ 9223372036854775807 ≠ 0.
Proof. repeat split; try reflexivity. discriminate. Qed.

(** The filter [owner.id=7] goes to [IdFilter] for its suffix [__id], of
    which [IdFilter] takes nothing away: the driver is handed
    [owner__id__id], where stripping the suffix would give [owner__id]. *)
Lemma IdFilter_join_suffix_kept :
  filterMap widgets !! "owner.id" = None
  ∧ HasSuffix (ReplaceAll "owner.id" "." "__") "__id" = true
  ∧ addFilterEntry noFloat widgets (QueryTable "widget") "owner.id"
      (VString "7")
    = Some (orm.Filter (QueryTable "widget") "owner__id__id" (orm.AInt 7))
  ∧ strippedIdField (ReplaceAll "owner.id" "." "__") = "owner__id".
Proof. repeat split; reflexivity. Qed.

(** ** Further properties: any iteration order, sample inputs *)

Lemma backOrder_perm (A : Type) (m : gmap string A) :
  backOrder A m ≡ₚ map_to_list m.
Proof. apply reverse_Permutation. Defined.

(** X19: whether [AddFilters] panics does not depend on the order in which
    the filter map is iterated; and when no entry has a function registered
    for its field, two orders give queries on the same table whose calls are
    the same up to their order. *)
Theorem AddFilters_any_order (FormatFloat : float → string)
    (order1 order2 : ∀ A : Type, gmap string A → list (string * A))
    (r : BaseRepository) (qs : QuerySeter)
    (opt : QueryOptions) (rest : list QueryOptions) :
  (∀ A (m : gmap string A), order1 A m ≡ₚ map_to_list m) →
  (∀ A (m : gmap string A), order2 A m ≡ₚ map_to_list m) →
  (AddFilters FormatFloat order1 r qs (opt :: rest) = None
   ↔ AddFilters FormatFloat order2 r qs (opt :: rest) = None)
  ∧ ((∀ k, is_Some (Filters opt !! k) → filterMap r !! k = None) →
     ∀ q1 q2,
       AddFilters FormatFloat order1 r qs (opt :: rest) = Some q1 →
       AddFilters FormatFloat order2 r qs (opt :: rest) = Some q2 →
       orm.table q1 = orm.table q2 ∧ orm.calls q1 ≡ₚ orm.calls q2).
Proof.
  intros H1 H2.
  set (P := λ (k : string) v,
              filterString FormatFloat v = None ∨ filterMap r !! k = Some None).
  assert (∀ st k v, addFilterEntry FormatFloat r st k v = None ↔ P k v)
    as Hbody by (intros; apply addFilterEntry_None).
  assert (∀ order, (∀ A (m : gmap string A), order A m ≡ₚ map_to_list m) →
            AddFilters FormatFloat order r qs (opt :: rest) = None
            ↔ ∃ k v, Filters opt !! k = Some v ∧ P k v) as Hpanic.
  { intros order Hperm. simpl.
    rewrite (rangeLoop_None_iff _ P _ qs Hbody).
    split; intros (k & v & Hk & HP); exists k, v; (split; [|done]);
      by apply (mapRange_elem order Hperm). }
  split; [by rewrite (Hpanic order1 H1), (Hpanic order2 H2)|].
  intros Hreg q1 q2 Hq1 Hq2.
  assert (∀ k v, Filters opt !! k = Some v →
                 filterMap r !! k = None ∧ is_Some (filterString FormatFloat v))
    as Hall.
  { intros k v Hk. split; [apply Hreg; by eexists|].
    destruct (filterString FormatFloat v) eqn:Hv; [by eexists|].
    assert (AddFilters FormatFloat order1 r qs (opt :: rest) = None) as Hn
      by (apply (Hpanic order1 H1); exists k, v; split; [done|by left]).
    congruence. }
  simpl in Hq1, Hq2.
  rewrite (rangeLoop_builtin FormatFloat r) in Hq1
    by (intros k v Hin; apply Hall; by apply (mapRange_elem order1 H1)).
  rewrite (rangeLoop_builtin FormatFloat r) in Hq2
    by (intros k v Hin; apply Hall; by apply (mapRange_elem order2 H2)).
  injection Hq1 as <-. injection Hq2 as <-. simpl. split; [done|].
  by rewrite H1, H2.
Qed.

Lemma AddFilters_any_order_witness :
  (∀ A (m : gmap string A), keyOrder A m ≡ₚ map_to_list m)
  ∧ (∀ A (m : gmap string A), backOrder A m ≡ₚ map_to_list m)
  ∧ AddFilters noFloat keyOrder widgets (QueryTable "widget")
      [options "" "" twoFilters]
    = Some {| orm.table := "widget";
              orm.calls := [orm.CFilter "owner__id" (orm.AInt 7);
                            orm.CFilter "name__istartswith" (orm.AString "x")] |}
  ∧ AddFilters noFloat backOrder widgets (QueryTable "widget")
      [options "" "" twoFilters]
    = Some {| orm.table := "widget";
              orm.calls := [orm.CFilter "name__istartswith" (orm.AString "x");
                            orm.CFilter "owner__id" (orm.AInt 7)] |}
  ∧ [orm.CFilter "owner__id" (orm.AInt 7);
     orm.CFilter "name__istartswith" (orm.AString "x")]
    ≡ₚ [orm.CFilter "name__istartswith" (orm.AString "x");
        orm.CFilter "owner__id" (orm.AInt 7)].
Proof.
  assert (AddFilters noFloat keyOrder widgets (QueryTable "widget")
            [options "" "" twoFilters]
          = Some {| orm.table := "widget";
                    orm.calls :=
                      [orm.CFilter "owner__id" (orm.AInt 7);
                       orm.CFilter "name__istartswith" (orm.AString "x")] |})
    as H1 by (vm_compute; reflexivity).
  assert (AddFilters noFloat backOrder widgets (QueryTable "widget")
            [options "" "" twoFilters]
          = Some {| orm.table := "widget";
                    orm.calls :=
                      [orm.CFilter "name__istartswith" (orm.AString "x");
                       orm.CFilter "owner__id" (orm.AInt 7)] |})
    as H2 by (vm_compute; reflexivity).
  split; [exact keyOrder_perm|]. split; [exact backOrder_perm|].
  split; [exact H1|]. split; [exact H2|].
  destruct (AddFilters_any_order noFloat keyOrder backOrder widgets
              (QueryTable "widget") (options "" "" twoFilters) []
              keyOrder_perm backOrder_perm) as [_ Hcalls].
  refine (proj2 (Hcalls _ _ _ H1 H2)).
  intros k _. apply lookup_empty.
Defined.


Lemma AddOptions_extends_witness :
  AddOptions (QueryTable "widget") [options "name" "" ∅]
  = Some (orm.OrderBy (QueryTable "widget") ["name"])
  ∧ orm.table (orm.OrderBy (QueryTable "widget") ["name"]) = "widget".
Proof.
  assert (AddOptions (QueryTable "widget") [options "name" "" ∅]
          = Some (orm.OrderBy (QueryTable "widget") ["name"])) as H
    by reflexivity.
  split; [exact H|].
  exact (proj1 (AddOptions_extends (QueryTable "widget") _ _ H)).
Defined.

(** [_sortField= owner.name , -age&_sortDir=ASC] *)
Lemma AddOptions_forward_witness :
  ToLower (Order (options " owner.name , -age" "ASC" ∅)) ≠ "desc"
  ∧ AddOptions (QueryTable "widget") [options " owner.name , -age" "ASC" ∅]
    = Some (orm.OrderBy (QueryTable "widget") ["owner__name"; "-age"]).
Proof.
  assert (ToLower (Order (options " owner.name , -age" "ASC" ∅)) ≠ "desc")
    as H by discriminate.
  split; [exact H|].
  exact (AddOptions_forward (QueryTable "widget")
           (options " owner.name , -age" "ASC" ∅) [] H).
Defined.

(** The order flags [DESC] and [desc] *)
Lemma AddOptions_order_case_witness :
  ToLower (Order (options "name,-age" "DESC" ∅))
  = ToLower (Order (options "name,-age" "desc" nameFilter))
  ∧ AddOptions (QueryTable "widget") [options "name,-age" "DESC" ∅]
    = AddOptions (QueryTable "widget")
        [options "name,-age" "desc" nameFilter; options "" "" ∅].
Proof.
  split; [reflexivity|].
  apply (AddOptions_order_case (QueryTable "widget")
           (options "name,-age" "DESC" ∅)
           (options "name,-age" "desc" nameFilter)
           [] [options "" "" ∅]); reflexivity.
Defined.

Lemma AddOptions_names_dotFree_witness :
  AddOptions (QueryTable "widget") [options "owner.name" "" ∅]
  = Some (orm.OrderBy (QueryTable "widget") ["owner__name"])
  ∧ Forall dotFree ["owner__name"].
Proof.
  assert (AddOptions (QueryTable "widget") [options "owner.name" "" ∅]
          = Some (orm.OrderBy (QueryTable "widget") ["owner__name"])) as H
    by reflexivity.
  split; [exact H|].
  destruct (AddOptions_names_dotFree (QueryTable "widget") _ _
              ["owner__name"] H) as [Hold|Hnew].
  - apply elem_of_cons. left. reflexivity.
  - apply elem_of_nil in Hold. destruct Hold.
  - exact Hnew.
Defined.

Lemma AddFilters_panics_iff_witness :
  (∀ A (m : gmap string A), keyOrder A m ≡ₚ map_to_list m)
  ∧ Filters (options "" "" activeFilter) !! "active" = Some (VBool true)
  ∧ filterString noFloat (VBool true) = None
  ∧ AddFilters noFloat keyOrder widgets (QueryTable "widget")
      [options "" "" activeFilter] = None.
Proof.
  split; [exact keyOrder_perm|]. split; [reflexivity|]. split; [reflexivity|].
  apply (AddFilters_panics_iff noFloat keyOrder keyOrder_perm widgets
           (QueryTable "widget") (options "" "" activeFilter) []).
  exists "active", (VBool true). split; [reflexivity|]. left. reflexivity.
Defined.

Lemma AddFilters_builtin_witness :
  (∀ A (m : gmap string A), keyOrder A m ≡ₚ map_to_list m)
  ∧ (∀ k v, Filters (options "" "" twoFilters) !! k = Some v →
            filterMap widgets !! k = None ∧ is_Some (filterString noFloat v))
  ∧ ∃ new,
      AddFilters noFloat keyOrder widgets (QueryTable "widget")
        [options "" "" twoFilters]
      = Some {| orm.table := "widget"; orm.calls := new |}
      ∧ length new = 2%nat.
Proof.
  assert (∀ k v, Filters (options "" "" twoFilters) !! k = Some v →
                 filterMap widgets !! k = None
                 ∧ is_Some (filterString noFloat v)) as Hall.
  { intros k v Hk. split; [apply lookup_empty|]. simpl in Hk.
    unfold twoFilters in Hk.
    apply lookup_insert_Some in Hk as [[_ <-] | [_ Hk]];
      [eexists; reflexivity|].
    apply lookup_singleton_Some in Hk as [_ <-]. eexists; reflexivity. }
  split; [exact keyOrder_perm|]. split; [exact Hall|].
  destruct (AddFilters_builtin noFloat keyOrder keyOrder_perm widgets
              (QueryTable "widget") (options "" "" twoFilters) [] Hall)
    as (new & Hrun & Hlen & _).
  exists new. split; [exact Hrun | exact Hlen].
Defined.

Lemma IdFilter_decimal_witness :
  Int.inRange 42
  ∧ IdFilter (QueryTable "widget") "ownerId" (FormatInt 42)
    = orm.Filter (QueryTable "widget") "owner__id" (orm.AInt 42).
Proof.
  assert (Int.inRange 42) as H by (split; discriminate).
  split; [exact H|].
  exact (IdFilter_decimal (QueryTable "widget") "ownerId" 42 H).
Defined.

(** [GET /widgets?_filters=null&color=red] *)
Lemma parseFilters_nil_map_witness :
  (∀ A (m : gmap string A), keyOrder A m ≡ₚ map_to_list m)
  ∧ blobFilters sameText decodeNull nullRequest = None
  ∧ Input nullRequest !! "color" = Some ["red"]
  ∧ HasPrefix "color" "_" = false
  ∧ parseFilters keyOrder sameText decodeNull nullRequest = None.
Proof.
  split; [exact keyOrder_perm|]. split; [reflexivity|].
  split; [reflexivity|]. split; [reflexivity|].
  apply (parseFilters_nil_map keyOrder keyOrder_perm sameText decodeNull
           nullRequest); [reflexivity|].
  exists "color", ["red"]. split; reflexivity.
Defined.

(** [GET /widgets?color=red&_sortField=name] *)
Lemma parseFilters_plain_witness :
  (∀ A (m : gmap string A), keyOrder A m ≡ₚ map_to_list m)
  ∧ GetString plainRequest "_filters" = ""
  ∧ (∀ k v, Input plainRequest !! k = Some v → HasPrefix k "_" = false → v ≠ [])
  ∧ ∃ filters,
      parseFilters keyOrder sameText decodeColor plainRequest = Some filters
      ∧ filters !! "color" = Some (VString "red")
      ∧ filters !! "_sortField" = None.
Proof.
  assert (∀ k v, Input plainRequest !! k = Some v →
                 HasPrefix k "_" = false → v ≠ []) as Hne.
  { intros k v Hk _ ->. simpl in Hk.
    apply lookup_insert_Some in Hk as [[_ Hk] | [_ Hk]]; [discriminate|].
    apply lookup_singleton_Some in Hk as [_ Hk]. discriminate. }
  split; [exact keyOrder_perm|]. split; [reflexivity|]. split; [exact Hne|].
  destruct (parseFilters_plain noFloat keyOrder keyOrder_perm sameText
              decodeColor plainRequest) as (filters & Hrun & Hlook & _);
    [reflexivity | exact Hne |].
  exists filters. split; [exact Hrun|]. split.
  - rewrite (Hlook "color"). reflexivity.
  - rewrite (Hlook "_sortField"). reflexivity.
Defined.

Lemma parseOptions_unpaged_witness :
  Bind firstPageRequest "_page" = Some 1
  ∧ Bind firstPageRequest "_perPage" = Some 10
  ∧ parseFilters keyOrder sameText decodeColor firstPageRequest = Some ∅
  ∧ ∃ opt,
      parseOptions keyOrder sameText decodeColor firstPageRequest = Some opt
      ∧ Offset opt = 0 ∧ Max opt = 10.
Proof.
  split; [reflexivity|]. split; [reflexivity|]. split; [reflexivity|].
  destruct (parseOptions_unpaged keyOrder sameText decodeColor
              firstPageRequest 1 10 ∅)
    as (opt & Hrun & Hoff & Hmax & _);
    [reflexivity | reflexivity | left; reflexivity | reflexivity |].
  exists opt. split; [exact Hrun|]. split; [exact Hoff | exact Hmax].
Defined.

(** [GET /widgets/7] on a store without rows *)
Lemma RESTGet_single_witness :
  Bind (Ctx deleteRequest) ":id" = Some 7
  ∧ 7 ≠ 0
  ∧ RESTGet noFloat keyOrder sameText decodeColor emptyRows deleteRequest
    = Some (Aborted "404" "widget 7 not found").
Proof.
  split; [reflexivity|]. split; [discriminate|].
  destruct (RESTGet_single noFloat keyOrder sameText decodeColor emptyRows
              deleteRequest 7) as (o & Hrun & _ & H404 & _);
    [reflexivity | discriminate |].
  rewrite Hrun. f_equal. apply H404. reflexivity.
Defined.

(** [GET /widgets/0] where counting fails after 25 *)
Lemma RESTGet_collection_witness :
  default 0 (Bind (Ctx listRequest) ":id") = 0
  ∧ RESTGet noFloat keyOrder sameText decodeColor emptyRows listRequest
    = Some (Served [("X-Total-Count", "25")] (JEntities [])).
Proof.
  split; [reflexivity|].
  destruct (RESTGet_collection noFloat keyOrder sameText decodeColor emptyRows
              listRequest) as [_ Hlist]; [reflexivity|].
  destruct (Hlist (options "" "" ∅) []) as (qs & _ & Hrun);
    [reflexivity | reflexivity |].
  exact Hrun.
Defined.

(** [GET /widgets?_sortDir=DESC] *)
Lemma RESTGet_desc_panics_witness :
  default 0 (Bind (Ctx descRequest) ":id") = 0
  ∧ Get (Input (Ctx descRequest)) "_sortField" = ""
  ∧ ToLower (Get (Input (Ctx descRequest)) "_sortDir") = "desc"
  ∧ RESTGet noFloat keyOrder sameText decodeColor emptyRows descRequest = None.
Proof.
  split; [reflexivity|]. split; [reflexivity|]. split; [reflexivity|].
  apply (RESTGet_desc_panics noFloat keyOrder sameText decodeColor emptyRows
           descRequest); reflexivity.
Defined.
